(** * searchbase-js: the request builder, the single-page fetch and the
      auto-pagination generator of [SearchbaseSDK]

    Embedded sources: [src/index.ts] and its later revision (the file that
    imports [cross-fetch] and makes [search] generic in the record type).
    The two revisions differ in one place only, the guard on [offset] in the
    request body; the model keeps both and names them [index_ts] and
    [part_001].

    Modelling decisions, all of them about the JavaScript runtime and none
    about the SDK's logic:
    - a [number] is an integer ([Z]); [NaN] and fractions are outside the
      model (the wire format only carries counts and offsets);
    - a thrown value is an [Error] object: either a [SearchError] or any
      other error, each with its [message];
    - a [Promise] is its settlement ([Completion]); the network is a
      state-passing function [respond], and every call of [fetch] is logged;
    - [data as SearchResponse] is an unchecked cast: a success body is taken
      at its declared type, an error body ([errorData : any]) is a JSON tree;
    - the async generator is a state machine advanced by [next], one
      suspension point per [yield]. *)

From Stdlib Require Import ZArith List String Bool Lia DecimalString.
Import ListNotations.
Local Open Scope string_scope.
Local Open Scope list_scope.
Local Open Scope Z_scope.

Set Implicit Arguments.
Set Warnings "-register-all".

(** ** JSON values and the JavaScript operations the SDK applies to them *)

Inductive json : Type :=
| JNull
| JBool (b : bool)
| JNum (n : Z)
| JStr (s : string)
| JArr (items : list json)
| JObj (props : list (string * json)).

(** An object literal under construction: its own properties, in insertion
    order. *)
Definition object := list (string * json).

(** [CreateDataProperty]: an existing key keeps its position and takes the
    new value, a fresh key goes last. *)
Fixpoint define (k : string) (v : json) (o : object) : object :=
  match o with
  | [] => [(k, v)]
  | (k', v') :: rest =>
      if String.eqb k k' then (k, v) :: rest else (k', v') :: define k v rest
  end.

(** [{ ...o, ...src }] *)
Definition spread (src o : object) : object :=
  fold_left (fun acc kv => define (fst kv) (snd kv) acc) src o.

(** [o[k]], [None] standing for [undefined]. *)
Fixpoint get (k : string) (o : object) : option json :=
  match o with
  | [] => None
  | (k', v) :: rest => if String.eqb k k' then Some v else get k rest
  end.

(** JavaScript truthiness, at the types the SDK tests. *)
Class Truthy (A : Type) := truthy : A -> bool.

#[export] Instance Truthy_number : Truthy Z := fun n => negb (n =? 0).
#[export] Instance Truthy_string : Truthy string :=
  fun s => negb (String.eqb s "").
(** Every array is an object, hence truthy, the empty one included. *)
#[export] Instance Truthy_array (A : Type) : Truthy (list A) := fun _ => true.
#[export] Instance Truthy_json : Truthy json := fun v =>
  match v with
  | JNull => false
  | JBool b => b
  | JNum n => truthy n
  | JStr s => truthy s
  | JArr _ | JObj _ => true
  end.
(** An optional property: [undefined] is falsy. *)
#[export] Instance Truthy_optional (A : Type) `{Truthy A} : Truthy (option A) :=
  fun x => match x with Some a => truthy a | None => false end.

(** [x && f x] inside a spread: a falsy [x] contributes no property. *)
Definition and_then {A : Type} `{Truthy A} (x : option A) (f : A -> object)
  : object :=
  match x with
  | Some a => if truthy a then f a else []
  | None => []
  end.

(** [c && o] for a boolean [c]. *)
Definition guard (c : bool) (o : object) : object := if c then o else [].

(** [String(n)] / [`${n}`] for an integer.  JavaScript prints integers
    below 10^21 in plain decimal and larger ones in exponent form; the
    latter are outside what this definition covers. *)
Definition number_to_string (n : Z) : string :=
  NilZero.string_of_int (Z.to_int n).

Fixpoint join (sep : string) (parts : list string) : string :=
  match parts with
  | [] => ""
  | [p] => p
  | p :: rest => (p ++ sep ++ join sep rest)%string
  end.

(** [ToString], as applied by the [Error] constructor to its argument.
    An object is taken to have no [toString] property of its own (with a
    non-callable one JavaScript throws instead). *)
Fixpoint ToString (v : json) : string :=
  match v with
  | JNull => "null"
  | JBool true => "true"
  | JBool false => "false"
  | JNum n => number_to_string n
  | JStr s => s
  | JArr items =>
      join "," (map (fun i => match i with JNull => "" | _ => ToString i end)
                    items)
  | JObj _ => "[object Object]"
  end.

(** ** Thrown values and promise settlement *)

Inductive thrown : Type :=
| SearchError (message : string)
| Error (message : string).

Definition message (e : thrown) : string :=
  match e with SearchError m | Error m => m end.

(** [error instanceof SearchError] *)
Definition instanceof_SearchError (e : thrown) : bool :=
  match e with SearchError _ => true | Error _ => false end.

Inductive Completion (A : Type) : Type :=
| Resolve (a : A)
| Reject (e : thrown).
Arguments Resolve {A} a.
Arguments Reject {A} e.

(** ** Data model (the exported interfaces) *)

Module Filter.
Record t := mk { field : string; op : string; value : json }.
Definition to_json (f : t) : json :=
  JObj [("field", JStr (field f)); ("op", JStr (op f)); ("value", value f)].
End Filter.

Inductive SortDirection := ASC | DESC.

Definition SortDirection_value (d : SortDirection) : string :=
  match d with ASC => "ASC" | DESC => "DESC" end.

Module Sort.
Record t := mk { field : string; direction : SortDirection }.
Definition to_json (s : t) : json :=
  JObj [("field", JStr (field s));
        ("direction", JStr (SortDirection_value (direction s)))].
End Sort.

Record SearchOptions := {
  index : string;
  filters : option (list Filter.t);
  sort : option (list Sort.t);
  select : option (list string);
  limit : option Z;
  offset : option Z
}.

Record Range := { start : Z; end_ : Z }.

(** [records] are opaque to the SDK ([T = any]). *)
Record SearchResponse := {
  total : Z;
  range : Range;
  records : list json
}.

(** ** Request builder *)

Inductive revision := index_ts | part_001.

(** The [query] object of [src/index.ts]. *)
Definition query_index_ts (options : SearchOptions) : object :=
  let q := [("index", JStr (index options))] in
  let q := spread (and_then (filters options) (fun fs =>
                     [("filters", JArr (map Filter.to_json fs))])) q in
  let q := spread (and_then (sort options) (fun ss =>
                     [("sort", JArr (map Sort.to_json ss))])) q in
  let q := spread (and_then (select options) (fun fs =>
                     [("select", JArr (map JStr fs))])) q in
  let q := spread (and_then (limit options) (fun n => [("limit", JNum n)])) q in
  let q := spread (and_then (offset options) (fun n => [("offset", JNum n)])) q in
  q.

(** The [query] object of the later revision: [offset] is also required to
    be [> 0]. *)
Definition query_part_001 (options : SearchOptions) : object :=
  let q := [("index", JStr (index options))] in
  let q := spread (and_then (filters options) (fun fs =>
                     [("filters", JArr (map Filter.to_json fs))])) q in
  let q := spread (and_then (sort options) (fun ss =>
                     [("sort", JArr (map Sort.to_json ss))])) q in
  let q := spread (and_then (select options) (fun fs =>
                     [("select", JArr (map JStr fs))])) q in
  let q := spread (and_then (limit options) (fun n => [("limit", JNum n)])) q in
  let q := spread (and_then (offset options) (fun n =>
                     guard (0 <? n) [("offset", JNum n)])) q in
  q.

Definition query (rev : revision) (options : SearchOptions) : object :=
  match rev with
  | index_ts => query_index_ts options
  | part_001 => query_part_001 options
  end.

(** [const body = { query: { ... } }] *)
Definition body (rev : revision) (options : SearchOptions) : json :=
  JObj [("query", JObj (query rev options))].

(** ** Transport *)

Module RequestInit.
Record t := mk {
  method : string;
  headers : list (string * string);
  (** the value handed to [JSON.stringify] *)
  body : json
}.
End RequestInit.

(** What [fetch] resolves to.  [response.ok] is the constructor; [json] is
    the settlement of [response.json()], a rejection standing for a body that
    does not parse.  A success body is read at the type the SDK casts it to,
    an error body as the JSON tree [errorData]. *)
Inductive Response : Type :=
| OkResponse (status : Z) (json : Completion SearchResponse)
| ErrorResponse (status : Z) (json : Completion json).

Definition ok (response : Response) : bool :=
  match response with OkResponse _ _ => true | ErrorResponse _ _ => false end.

Definition status (response : Response) : Z :=
  match response with OkResponse s _ | ErrorResponse s _ => s end.

(** One call of [fetch]: what was sent and how the promise settled. *)
Record Exchange := {
  url : string;
  init : RequestInit.t;
  settled : Completion Response
}.

(** [errorData.message]: reading a property of [null] throws a [TypeError];
    a primitive or an array has no such property. *)
Definition errorData_message (errorData : json) : Completion (option json) :=
  match errorData with
  | JNull =>
      Reject (Error "Cannot read properties of null (reading 'message')")
  | JObj props => Resolve (get "message" props)
  | _ => Resolve None
  end.

(** [x || d] *)
Definition or_else (x : option json) (d : json) : json :=
  match x with
  | Some v => if truthy v then v else d
  | None => d
  end.

Record SearchbaseSDK := { apiToken : string; baseURL : string }.

(** [new SearchbaseSDK(apiToken)] *)
Definition new_SearchbaseSDK (apiToken : string) : SearchbaseSDK :=
  {| apiToken := apiToken; baseURL := "https://api.searchbase.dev" |}.

(** State of the async generator returned by [searchAll].  At a [yield] the
    locals still hold the values from before the page was accounted for. *)
Inductive Generator : Type :=
| SuspendedStart (options : SearchOptions)
| SuspendedYield (options : SearchOptions) (offset totalFetched : Z)
                 (total : option Z) (response : SearchResponse)
| Completed.

(** [{ value, done: false }] and [{ value: undefined, done: true }]. *)
Inductive IteratorResult : Type :=
| Yield (value : list json)
| Return.

(** How a [for await] loop over the generator stands after some steps. *)
Inductive Outcome : Type :=
| Finished
| Threw (e : thrown)
| Pending.

Section SDK.

(** The remote service with the network in front of it. *)
Variable World : Type.
Variable respond :
  string -> RequestInit.t -> World -> Completion Response * World.
Variable rev : revision.

Record Runtime := { world : World; calls : list Exchange }.

Definition IO (A : Type) : Type := Runtime -> Completion A * Runtime.

Definition ret {A : Type} (a : A) : IO A := fun rt => (Resolve a, rt).

Definition throw {A : Type} (e : thrown) : IO A := fun rt => (Reject e, rt).

Definition await {A : Type} (p : Completion A) : IO A := fun rt => (p, rt).

Definition bind {A B : Type} (m : IO A) (k : A -> IO B) : IO B :=
  fun rt =>
    match m rt with
    | (Resolve a, rt') => k a rt'
    | (Reject e, rt') => (Reject e, rt')
    end.

Definition try_catch {A : Type} (m : IO A) (handler : thrown -> IO A)
  : IO A :=
  fun rt =>
    match m rt with
    | (Resolve a, rt') => (Resolve a, rt')
    | (Reject e, rt') => handler e rt'
    end.

Notation "x <- m ;; k" := (bind m (fun x => k))
  (at level 61, m at next level, right associativity).

Definition fetch (url : string) (options : RequestInit.t) : IO Response :=
  fun rt =>
    let (r, w) := respond url options (world rt) in
    (r, {| world := w;
           calls := calls rt ++ [{| url := url; init := options;
                                   settled := r |}] |}).

Definition fetchWithErrorHandling (url : string) (options : RequestInit.t)
  : IO Response :=
  try_catch
    (response <- fetch url options ;;
     match response with
     | ErrorResponse status json =>
         errorData <- await json ;;
         m <- await (errorData_message errorData) ;;
         throw (SearchError
                  (ToString
                     (or_else m
                        (JStr ("HTTP error! status: "
                                 ++ number_to_string status)%string))))
     | OkResponse _ _ => ret response
     end)
    (fun error =>
       if instanceof_SearchError error then throw error
       else throw (SearchError ("Network error: " ++ message error)%string)).

(** [response.json()] followed by [data as SearchResponse].  The second
    case is never evaluated: [fetchWithErrorHandling] resolves only with
    responses whose [ok] is set (lemma [fetchWithErrorHandling_ok]). *)
Definition json_as_SearchResponse (response : Response)
  : Completion SearchResponse :=
  match response with
  | OkResponse _ json => json
  | ErrorResponse _ _ => Reject (Error "body is not a SearchResponse")
  end.

Definition requestOptions (this : SearchbaseSDK) (options : SearchOptions)
  : RequestInit.t :=
  {| RequestInit.method := "POST";
     RequestInit.headers :=
       [("Content-Type", "application/json");
        ("x-searchbase-token", apiToken this)];
     RequestInit.body := body rev options |}.

Definition search (this : SearchbaseSDK) (options : SearchOptions)
  : IO SearchResponse :=
  let url := (baseURL this ++ "/search")%string in
  response <- fetchWithErrorHandling url (requestOptions this options) ;;
  data <- await (json_as_SearchResponse response) ;;
  ret data.

Definition batchSize : Z := 100.

(** [{ ...options, limit: batchSize, offset }] *)
Definition page_options (options : SearchOptions) (offset : Z)
  : SearchOptions :=
  {| index := index options;
     filters := filters options;
     sort := sort options;
     select := select options;
     limit := Some batchSize;
     offset := Some offset |}.

(** [total ?? 0] *)
Definition nullish (total : option Z) (d : Z) : Z :=
  match total with Some t => t | None => d end.

(** From the top of the [do] body to the [yield]. *)
Definition fetch_page (this : SearchbaseSDK) (options : SearchOptions)
           (offset totalFetched : Z) (total : option Z) (rt : Runtime)
  : Completion IteratorResult * Generator * Runtime :=
  match search this (page_options options offset) rt with
  | (Resolve response, rt') =>
      (Resolve (Yield (records response)),
       SuspendedYield options offset totalFetched total response, rt')
  | (Reject e, rt') => (Reject e, Completed, rt')
  end.

(** [searchAll(options)]: calling an async generator function runs none
    of its body. *)
Definition searchAll (options : SearchOptions) : Generator :=
  SuspendedStart options.

(** [generator.next()] *)
Definition next (this : SearchbaseSDK) (g : Generator) (rt : Runtime)
  : Completion IteratorResult * Generator * Runtime :=
  match g with
  | SuspendedStart options =>
      let offset := 0 in
      let totalFetched := 0 in
      let total := None in
      fetch_page this options offset totalFetched total rt
  | SuspendedYield options _ totalFetched _ response =>
      let totalFetched' :=
        totalFetched + Z.of_nat (List.length (records response)) in
      let offset' := end_ (range response) in
      let total' := Some (total response) in
      if totalFetched' <? nullish total' 0
      then fetch_page this options offset' totalFetched' total' rt
      else (Resolve Return, Completed, rt)
  | Completed => (Resolve Return, Completed, rt)
  end.

(** The consumer: [for await (const batch of generator) ...], cut off
    after [fuel] calls of [next].  The consumer reads the batches and does
    not modify them, so that [response.records] is unchanged when the
    generator resumes. *)
Record Run := {
  batches : list (list json);
  outcome : Outcome;
  generator : Generator;
  runtime : Runtime
}.

Fixpoint for_await (fuel : nat) (this : SearchbaseSDK) (g : Generator)
         (rt : Runtime) : Run :=
  match fuel with
  | O => {| batches := []; outcome := Pending; generator := g;
            runtime := rt |}
  | S fuel' =>
      match next this g rt with
      | (Resolve (Yield batch), g', rt') =>
          let r := for_await fuel' this g' rt' in
          {| batches := batch :: batches r; outcome := outcome r;
             generator := generator r; runtime := runtime r |}
      | (Resolve Return, g', rt') =>
          {| batches := []; outcome := Finished; generator := g';
             runtime := rt' |}
      | (Reject e, g', rt') =>
          {| batches := []; outcome := Threw e; generator := g';
             runtime := rt' |}
      end
  end.

(** *** What [search] makes of one settled [fetch] *)

(** The [catch] clause of [fetchWithErrorHandling]. *)
Definition rethrow (error : thrown) : thrown :=
  if instanceof_SearchError error then error
  else SearchError ("Network error: " ++ message error)%string.

(** Closed form of [search] as a function of how [fetch] settled; it is
    derived from the code by [search_settle] below and only serves to
    state facts about whole traversals. *)
Definition settle (r : Completion Response) : Completion SearchResponse :=
  match r with
  | Reject e => Reject (rethrow e)
  | Resolve (OkResponse _ json) => json
  | Resolve (ErrorResponse status (Reject e)) => Reject (rethrow e)
  | Resolve (ErrorResponse status (Resolve errorData)) =>
      match errorData_message errorData with
      | Reject e => Reject (rethrow e)
      | Resolve m =>
          Reject (SearchError
                    (ToString
                       (or_else m
                          (JStr ("HTTP error! status: "
                                   ++ number_to_string status)%string))))
      end
  end.

(** The exchange [search this options] performs from runtime [rt]. *)
Definition exchange_of (this : SearchbaseSDK) (options : SearchOptions)
           (rt : Runtime) : Exchange :=
  {| url := (baseURL this ++ "/search")%string;
     init := requestOptions this options;
     settled := fst (respond ((baseURL this ++ "/search")%string)
                             (requestOptions this options) (world rt)) |}.

Definition after (this : SearchbaseSDK) (options : SearchOptions)
           (rt : Runtime) : Runtime :=
  {| world := snd (respond ((baseURL this ++ "/search")%string)
                           (requestOptions this options) (world rt));
     calls := calls rt ++ [exchange_of this options rt] |}.

(** *** Whole traversals *)

(** The page the generator requests when it is resumed, with the locals
    [offset], [totalFetched] and [total] at that point; [None] when the
    resumption ends the generator instead. *)
Definition upcoming (g : Generator)
  : option (SearchOptions * Z * Z * option Z) :=
  match g with
  | SuspendedStart options => Some (options, 0, 0, None)
  | SuspendedYield options _ totalFetched _ response =>
      let totalFetched' :=
        totalFetched + Z.of_nat (List.length (records response)) in
      if totalFetched' <? total response
      then Some (options, end_ (range response), totalFetched',
                 Some (total response))
      else None
  | Completed => None
  end.

(** [Traversal this g es bs out]: resumed from [g], a [for await] loop
    performs the exchanges [es], receives the batches [bs] and stands at
    [out].  Derived from [next] and [for_await] by [for_await_Traversal]. *)
Inductive Traversal (this : SearchbaseSDK)
  : Generator -> list Exchange -> list (list json) -> Outcome -> Prop :=
| Traversal_cut g :
    Traversal this g [] [] Pending
| Traversal_end g :
    upcoming g = None ->
    Traversal this g [] [] Finished
| Traversal_fail g options o tf t e err :
    upcoming g = Some (options, o, tf, t) ->
    url e = (baseURL this ++ "/search")%string ->
    init e = requestOptions this (page_options options o) ->
    settle (settled e) = Reject err ->
    Traversal this g [e] [] (Threw err)
| Traversal_page g options o tf t e p es bs out :
    upcoming g = Some (options, o, tf, t) ->
    url e = (baseURL this ++ "/search")%string ->
    init e = requestOptions this (page_options options o) ->
    settle (settled e) = Resolve p ->
    Traversal this (SuspendedYield options o tf t p) es bs out ->
    Traversal this g (e :: es) (records p :: bs) out.

End SDK.

(** The [query] object a logged request carried. *)
Definition sent_query (e : Exchange) : object :=
  match RequestInit.body (init e) with
  | JObj props =>
      match get "query" props with
      | Some (JObj q) => q
      | _ => []
      end
  | _ => []
  end.

(** ** Servers used in the examples *)

(** A queue of settlements, one per call, in the manner of
    [mockResolvedValueOnce]; once the queue is empty the call fails. *)
Definition mockedFetch (_ : string) (_ : RequestInit.t)
           (queue : list (Completion Response))
  : Completion Response * list (Completion Response) :=
  match queue with
  | [] => (Reject (Error "fetch failed"), [])
  | r :: rest => (r, rest)
  end.

Definition mocked (queue : list (Completion Response))
  : Runtime (list (Completion Response)) :=
  {| world := queue; calls := [] |}.

Definition page (total start end_ : Z) (records : list json) : Response :=
  OkResponse 200
    (Resolve {| total := total; range := {| start := start; end_ := end_ |};
                records := records |}).

(** A data set that gains a record between any two requests: the [n]-th
    call (from 0) returns the single record [n] and reports [n + 2]. *)
Definition growing (_ : string) (_ : RequestInit.t) (n : Z)
  : Completion Response * Z :=
  (Resolve (page (n + 2) n (n + 1) [JNum n]), n + 1).

(** A server that reports one match and never returns it. *)
Definition stalling (_ : string) (_ : RequestInit.t) (w : unit)
  : Completion Response * unit :=
  (Resolve (page 1 0 0 []), w).

Definition sdk : SearchbaseSDK := new_SearchbaseSDK "test-api-token".

Definition test_index : SearchOptions :=
  {| index := "test-index"; filters := None; sort := None; select := None;
     limit := None; offset := None |}.

Definition with_offset (n : Z) : SearchOptions :=
  {| index := "test-index"; filters := None; sort := None; select := None;
     limit := Some 10; offset := Some n |}.

(** A data set of three records served one per page. *)
Definition steady (_ : string) (_ : RequestInit.t) (n : Z)
  : Completion Response * Z :=
  (Resolve (page 3 n (n + 1) [JNum n]), n + 1).

Definition fresh {World : Type} (w : World) : Runtime World :=
  {| world := w; calls := [] |}.

Definition record (id title : string) : json :=
  JObj [("id", JStr id); ("title", JStr title)].

(** The two pages of the repository's pagination test. *)
Definition two_pages : list (Completion Response) :=
  [Resolve (page 3 0 2 [record "1" "Record 1"; record "2" "Record 2"]);
   Resolve (page 3 2 3 [record "3" "Record 3"])].

(** A first page, then HTTP 500 with a structured error. *)
Definition page_then_500 : list (Completion Response) :=
  [Resolve (page 3 0 2 [record "1" "Record 1"; record "2" "Record 2"]);
   Resolve (ErrorResponse 500
              (Resolve (JObj [("message", JStr "index not found")])))].

(** A data set that shrinks from five matches to three between pages. *)
Definition shrinking : list (Completion Response) :=
  [Resolve (page 5 0 2 [JNum 1; JNum 2]);
   Resolve (page 3 2 4 [JNum 3; JNum 4])].

(** What [response.json()] rejects with on a body that is not JSON. *)
Definition SyntaxError : thrown :=
  Error "Unexpected token < in JSON at position 0".

(** The value of a numeric key of the [query] a request carries. *)
Definition requested (k : string) (i : RequestInit.t) : option Z :=
  match RequestInit.body i with
  | JObj props =>
      match get "query" props with
      | Some (JObj q) =>
          match get k q with
          | Some (JNum n) => Some n
          | _ => None
          end
      | _ => None
      end
  | _ => None
  end.

(** A service over a fixed data set that honours [offset] (0 when absent)
    and [limit] (everything when absent) and reports truthfully. *)
Definition paged (data : list json) (_ : string) (i : RequestInit.t) (w : unit)
  : Completion Response * unit :=
  let o := match requested "offset" i with Some n => n | None => 0 end in
  let l := match requested "limit" i with
           | Some n => Z.to_nat n
           | None => List.length data
           end in
  let s := firstn l (skipn (Z.to_nat o) data) in
  (Resolve (page (Z.of_nat (List.length data)) o (o + Z.of_nat (List.length s)) s),
   w).

Definition numbered (n : nat) : list json :=
  map (fun k => JNum (Z.of_nat k)) (seq 0 n).

(** [Omit<SearchOptions, "limit" | "offset">]: the options [searchAll]
    declares, seen as a [SearchOptions] without the two keys. *)
Definition Omit_limit_offset (options : SearchOptions) : SearchOptions :=
  {| index := index options;
     filters := filters options;
     sort := sort options;
     select := select options;
     limit := None;
     offset := None |}.

(** The same generator state over other options. *)
Definition with_options (f : SearchOptions -> SearchOptions) (g : Generator)
  : Generator :=
  match g with
  | SuspendedStart options => SuspendedStart (f options)
  | SuspendedYield options o tf t p => SuspendedYield (f options) o tf t p
  | Completed => Completed
  end.

(** Options with every field set, and a limit and offset of their own. *)
Definition full_options : SearchOptions :=
  {| index := "products";
     filters := Some [Filter.mk "category" "==" (JStr "electronics");
                      Filter.mk "price" "<" (JNum 1000)];
     sort := Some [Sort.mk "price" ASC];
     select := Some ["title"; "price"];
     limit := Some 20;
     offset := Some 40 |}.

(** * Facts *)

(** ** The request builder *)

Unset Implicit Arguments.

Ltac query_cases options :=
  destruct options as [i [fs | ] [ss | ] [sel | ] [l | ] [o | ]];
  cbv [query query_index_ts query_part_001 and_then guard truthy
       Truthy_optional Truthy_array Truthy_number
       index filters sort select limit offset];
  repeat match goal with
    | |- context [?n =? 0] => destruct (Z.eqb_spec n 0); subst
    | |- context [0 <? ?n] => destruct (Z.ltb_spec 0 n)
    end;
  cbn.

Lemma get_index (rev : revision) (options : SearchOptions) :
  get "index" (query rev options) = Some (JStr (index options)).
Proof. destruct rev; query_cases options; reflexivity. Qed.

Lemma get_limit (rev : revision) (options : SearchOptions) :
  get "limit" (query rev options)
  = match limit options with
    | Some n => if n =? 0 then None else Some (JNum n)
    | None => None
    end.
Proof. destruct rev; query_cases options; reflexivity. Qed.

Lemma get_filters (rev : revision) (options : SearchOptions) :
  get "filters" (query rev options)
  = option_map (fun fs => JArr (map Filter.to_json fs)) (filters options).
Proof. destruct rev; query_cases options; reflexivity. Qed.

Lemma get_sort (rev : revision) (options : SearchOptions) :
  get "sort" (query rev options)
  = option_map (fun ss => JArr (map Sort.to_json ss)) (sort options).
Proof. destruct rev; query_cases options; reflexivity. Qed.

Lemma get_select (rev : revision) (options : SearchOptions) :
  get "select" (query rev options)
  = option_map (fun fs => JArr (map JStr fs)) (select options).
Proof. destruct rev; query_cases options; reflexivity. Qed.

Lemma get_offset_index_ts (options : SearchOptions) :
  get "offset" (query index_ts options)
  = match offset options with
    | Some n => if n =? 0 then None else Some (JNum n)
    | None => None
    end.
Proof. query_cases options; reflexivity. Qed.

Lemma get_offset_part_001 (options : SearchOptions) :
  get "offset" (query part_001 options)
  = match offset options with
    | Some n => if 0 <? n then Some (JNum n) else None
    | None => None
    end.
Proof. query_cases options; try reflexivity; lia. Qed.

(** C3 (amended).  For every options object, the [query] that [search]
    sends has [index] always; has [limit] exactly when it is present and
    nonzero; has no [offset] when it is absent or zero and has it when it is
    strictly positive, the later revision having it only then; and has
    [filters], [sort] and [select] exactly when the caller supplied them, an
    empty array being sent as an empty array. *)
Theorem request_body_fields (rev : revision) (options : SearchOptions) :
  get "index" (query rev options) = Some (JStr (index options))
  /\ get "limit" (query rev options)
     = match limit options with
       | Some n => if n =? 0 then None else Some (JNum n)
       | None => None
       end
  /\ (offset options = None \/ offset options = Some 0 ->
      get "offset" (query rev options) = None)
  /\ (forall n, offset options = Some n -> 0 < n ->
      get "offset" (query rev options) = Some (JNum n))
  /\ (forall v, get "offset" (query part_001 options) = Some v ->
      exists n, offset options = Some n /\ 0 < n /\ v = JNum n)
  /\ get "filters" (query rev options)
     = option_map (fun fs => JArr (map Filter.to_json fs)) (filters options)
  /\ get "sort" (query rev options)
     = option_map (fun ss => JArr (map Sort.to_json ss)) (sort options)
  /\ get "select" (query rev options)
     = option_map (fun fs => JArr (map JStr fs)) (select options).
Proof.
  split; [apply get_index | ].
  split; [apply get_limit | ].
  split.
  { intros [H | H]; destruct rev;
      rewrite ?get_offset_index_ts, ?get_offset_part_001, H; reflexivity. }
  split.
  { intros n H Hn. destruct rev;
      rewrite ?get_offset_index_ts, ?get_offset_part_001, H.
    - destruct (Z.eqb_spec n 0); [lia | reflexivity].
    - destruct (Z.ltb_spec 0 n); [reflexivity | lia]. }
  split.
  { intros v. rewrite get_offset_part_001.
    destruct (offset options) as [n | ]; [ | discriminate].
    destruct (Z.ltb_spec 0 n) as [Hn | Hn]; [ | discriminate].
    intros Hv; inversion Hv. exists n. auto. }
  split; [apply get_filters | ].
  split; [apply get_sort | apply get_select].
Qed.

Lemma request_body_fields_witness :
  get "offset" (query index_ts (with_offset 0)) = None
  /\ get "offset" (query part_001 (with_offset 2)) = Some (JNum 2)
  /\ exists n, offset (with_offset 2) = Some n /\ 0 < n /\ JNum 2 = JNum n.
Proof.
  split.
  - apply (proj1 (proj2 (proj2 (request_body_fields index_ts (with_offset 0))))).
    right; reflexivity.
  - split.
    + apply (proj1 (proj2 (proj2 (proj2
               (request_body_fields part_001 (with_offset 2)))))).
      * reflexivity.
      * lia.
    + apply (proj1 (proj2 (proj2 (proj2 (proj2
               (request_body_fields part_001 (with_offset 2))))))).
      reflexivity.
Defined.

(** C3 as stated fails: an empty [filters] or [select] array is truthy and
    goes into the body, in both revisions. *)
Lemma request_body_empty_arrays :
  let options := {| index := "i"; filters := Some []; sort := None;
                    select := Some []; limit := None; offset := None |} in
  query index_ts options
  = [("index", JStr "i"); ("filters", JArr []); ("select", JArr [])]
  /\ query part_001 options
     = [("index", JStr "i"); ("filters", JArr []); ("select", JArr [])].
Proof. split; reflexivity. Qed.

(** C10 as stated fails: on a negative [offset] the first revision sends
    it and the later one drops it. *)
Lemma revisions_differ_on_negative_offset :
  body index_ts (with_offset (-1)) <> body part_001 (with_offset (-1))
  /\ get "offset" (query index_ts (with_offset (-1))) = Some (JNum (-1))
  /\ get "offset" (query part_001 (with_offset (-1))) = None.
Proof. split; [discriminate | split; reflexivity]. Qed.

(** C10 (amended).  The two revisions of [search] build the same request
    body for every options object whose [offset] is absent or not
    negative. *)
Theorem revisions_agree (options : SearchOptions) :
  (forall n, offset options = Some n -> 0 <= n) ->
  body index_ts options = body part_001 options.
Proof.
  intros H. unfold body. do 4 f_equal.
  query_cases options; try reflexivity;
    specialize (H o eq_refl); lia.
Qed.

Lemma revisions_agree_witness :
  body index_ts (with_offset 2) = body part_001 (with_offset 2).
Proof.
  apply revisions_agree. intros n H. injection H as <-. lia.
Defined.

Section Facts.

Variable World : Type.
Variable respond :
  string -> RequestInit.t -> World -> Completion Response * World.
Variable rev : revision.

Lemma fetch_run (u : string) (i : RequestInit.t) (rt : Runtime World) :
  fetch respond u i rt =
    (fst (respond u i (world rt)),
     {| world := snd (respond u i (world rt));
        calls := calls rt ++ [{| url := u; init := i;
                                 settled := fst (respond u i (world rt)) |}] |}).
Proof. unfold fetch. destruct (respond u i (world rt)); reflexivity. Qed.

(** [fetchWithErrorHandling] hands back only responses with [ok] set. *)
Lemma fetchWithErrorHandling_ok (u : string) (i : RequestInit.t)
      (rt rt' : Runtime World) (response : Response) :
  fetchWithErrorHandling respond u i rt = (Resolve response, rt') ->
  ok response = true.
Proof.
  unfold fetchWithErrorHandling, try_catch, bind.
  rewrite fetch_run.
  destruct (fst (respond u i (world rt))) as [[st j | st j] | e]; cbn.
  - intros H; inversion H; reflexivity.
  - destruct j as [d | e]; cbn.
    + destruct (errorData_message d) as [m | e]; cbn;
        [ | destruct (instanceof_SearchError e)]; discriminate.
    + destruct (instanceof_SearchError e); discriminate.
  - destruct (instanceof_SearchError e); discriminate.
Qed.

Lemma search_settle (this : SearchbaseSDK) (options : SearchOptions)
      (rt : Runtime World) :
  search respond rev this options rt =
    (settle (settled (exchange_of respond rev this options rt)),
     after respond rev this options rt).
Proof.
  unfold search, fetchWithErrorHandling, try_catch, bind, after, exchange_of.
  rewrite fetch_run. cbn [settled].
  destruct (fst (respond _ _ (world rt))) as [[st j | st j] | e]; cbn.
  - destruct j; reflexivity.
  - destruct j as [d | e]; cbn.
    + destruct (errorData_message d) as [m | e]; cbn; [reflexivity | ].
      unfold rethrow. destruct (instanceof_SearchError e); reflexivity.
    + unfold rethrow. destruct (instanceof_SearchError e); reflexivity.
  - unfold rethrow. destruct (instanceof_SearchError e); reflexivity.
Qed.

Lemma fetch_page_run (this : SearchbaseSDK) (options : SearchOptions)
      (o tf : Z) (t : option Z) (rt : Runtime World) :
  fetch_page respond rev this options o tf t rt =
    match settle (settled (exchange_of respond rev this
                                       (page_options options o) rt)) with
    | Resolve p =>
        (Resolve (Yield (records p)), SuspendedYield options o tf t p,
         after respond rev this (page_options options o) rt)
    | Reject err =>
        (Reject err, Completed,
         after respond rev this (page_options options o) rt)
    end.
Proof.
  unfold fetch_page. rewrite search_settle.
  destruct (settle _); reflexivity.
Qed.

Lemma next_upcoming (this : SearchbaseSDK) (g : Generator)
      (rt : Runtime World) :
  next respond rev this g rt =
    match upcoming g with
    | Some (options, o, tf, t) => fetch_page respond rev this options o tf t rt
    | None => (Resolve Return, Completed, rt)
    end.
Proof.
  destruct g as [options | options o tf t p | ]; cbn; try reflexivity.
  destruct (_ <? _); reflexivity.
Qed.

(** Every cut of the consumer loop is a [Traversal]. *)
Lemma for_await_Traversal (fuel : nat) (this : SearchbaseSDK) :
  forall (g : Generator) (rt : Runtime World),
  exists es,
    calls (runtime (for_await respond rev fuel this g rt)) = calls rt ++ es
    /\ Traversal rev this g es
         (batches (for_await respond rev fuel this g rt))
         (outcome (for_await respond rev fuel this g rt)).
Proof.
  induction fuel as [ | fuel IH]; intros g rt.
  - exists []. cbn. rewrite app_nil_r. split; [reflexivity | constructor].
  - cbn [for_await]. rewrite next_upcoming.
    destruct (upcoming g) as [[[[options o] tf] t] | ] eqn:U.
    + rewrite fetch_page_run.
      set (e := exchange_of respond rev this (page_options options o) rt).
      destruct (settle (settled e)) as [p | err] eqn:Hs.
      * destruct (IH (SuspendedYield options o tf t p)
                     (after respond rev this (page_options options o) rt))
          as [es [Hc Ht]].
        exists (e :: es). cbn [batches outcome runtime]. split.
        -- rewrite Hc. cbn [after calls]. rewrite <- app_assoc. reflexivity.
        -- eapply Traversal_page; eauto.
      * exists [e]. cbn [batches outcome runtime after calls]. split.
        -- reflexivity.
        -- eapply Traversal_fail; eauto.
    + exists []. cbn. rewrite app_nil_r. split; [reflexivity | ].
      apply Traversal_end; assumption.
Qed.

(** A loop that has left [Pending] has left the generator [Completed]. *)
Lemma for_await_Completed (fuel : nat) (this : SearchbaseSDK) :
  forall (g : Generator) (rt : Runtime World),
    outcome (for_await respond rev fuel this g rt) <> Pending ->
    generator (for_await respond rev fuel this g rt) = Completed.
Proof.
  induction fuel as [ | fuel IH]; intros g rt.
  - cbn. congruence.
  - cbn [for_await]. rewrite next_upcoming.
    destruct (upcoming g) as [[[[options o] tf] t] | ]; [ | reflexivity].
    rewrite fetch_page_run. destruct (settle _); cbn; [ | reflexivity].
    apply IH.
Qed.

(** More fuel does not change a loop that has ended. *)
Lemma for_await_more (fuel : nat) (this : SearchbaseSDK) :
  forall (g : Generator) (rt : Runtime World) (extra : nat),
    outcome (for_await respond rev fuel this g rt) <> Pending ->
    for_await respond rev (fuel + extra) this g rt
    = for_await respond rev fuel this g rt.
Proof.
  induction fuel as [ | fuel IH]; intros g rt extra.
  - cbn. congruence.
  - cbn [for_await Nat.add]. rewrite next_upcoming.
    destruct (upcoming g) as [[[[options o] tf] t] | ]; [ | reflexivity].
    rewrite fetch_page_run. destruct (settle _); cbn; [ | reflexivity].
    intros H. rewrite IH by assumption. reflexivity.
Qed.

(** *** Single-page fetch *)

Lemma search_sends (this : SearchbaseSDK) (options : SearchOptions)
      (rt : Runtime World) :
  calls (snd (search respond rev this options rt))
  = calls rt ++ [exchange_of respond rev this options rt]
  /\ sent_query (exchange_of respond rev this options rt)
     = query rev options.
Proof. rewrite search_settle. split; reflexivity. Qed.

(** A rejected [fetch] reaches the caller wrapped, unless it already is
    a [SearchError]. *)
Lemma search_wraps_fetch_rejection
      (this : SearchbaseSDK) (options : SearchOptions) (rt : Runtime World)
      (e : thrown) (w : World) :
  respond (baseURL this ++ "/search")%string (requestOptions rev this options)
          (world rt)
  = (Reject e, w) ->
  instanceof_SearchError e = false ->
  fst (search respond rev this options rt)
  = Reject (SearchError ("Network error: " ++ message e)%string).
Proof.
  intros H He. rewrite search_settle. unfold exchange_of. rewrite H.
  cbn. unfold rethrow. rewrite He. reflexivity.
Qed.

(** C8.  When [fetch] resolves with a success status and the body decodes
    to [data], [search] resolves with [data] itself: same [records], same
    [range], same [total]. *)
Theorem search_returns_decoded_body
        (this : SearchbaseSDK) (options : SearchOptions) (rt : Runtime World)
        (st : Z) (data : SearchResponse) (w : World) :
  respond (baseURL this ++ "/search")%string (requestOptions rev this options)
          (world rt)
  = (Resolve (OkResponse st (Resolve data)), w) ->
  fst (search respond rev this options rt) = Resolve data.
Proof.
  intros H. rewrite search_settle. unfold exchange_of. rewrite H.
  reflexivity.
Qed.

(** C4 (amended).  When [fetch] resolves with a failure status, [search]
    rejects with a [SearchError] whose message is
    - the body's [message], when the body parses to an object whose
      [message] is a non-empty string;
    - the generic [HTTP error! status: <code>], when the body parses to a
      value other than [null] whose [message] is absent or falsy;
    - [Network error: ] followed by the underlying message, when the body
      does not parse, and when it parses to [null]. *)
Theorem search_failure_status
        (this : SearchbaseSDK) (options : SearchOptions) (rt : Runtime World)
        (st : Z) (body : Completion json) (w : World) :
  respond (baseURL this ++ "/search")%string (requestOptions rev this options)
          (world rt)
  = (Resolve (ErrorResponse st body), w) ->
  (forall props m,
      body = Resolve (JObj props) ->
      get "message" props = Some (JStr m) -> m <> ""%string ->
      fst (search respond rev this options rt) = Reject (SearchError m))
  /\ (forall errorData m,
        body = Resolve errorData ->
        errorData_message errorData = Resolve m -> truthy m = false ->
        fst (search respond rev this options rt)
        = Reject (SearchError ("HTTP error! status: "
                                 ++ number_to_string st)%string))
  /\ (forall e,
        body = Reject e -> instanceof_SearchError e = false ->
        fst (search respond rev this options rt)
        = Reject (SearchError ("Network error: " ++ message e)%string))
  /\ (body = Resolve JNull ->
      fst (search respond rev this options rt)
      = Reject (SearchError
                  "Network error: Cannot read properties of null (reading 'message')")).
Proof.
  intros H. rewrite search_settle. unfold exchange_of. rewrite H.
  cbn [fst settled]. repeat split.
  - intros props m -> Hm Hne. cbn. rewrite Hm.
    cbv [or_else truthy Truthy_json Truthy_string].
    destruct (String.eqb_spec m ""); [contradiction | reflexivity].
  - intros errorData m -> Hm Hf. cbn. rewrite Hm.
    destruct m as [v | ]; cbn in *; [rewrite Hf | ]; reflexivity.
  - intros e -> He. cbn. unfold rethrow. rewrite He. reflexivity.
  - intros ->. reflexivity.
Qed.

(** *** Shape of a traversal *)

Lemma upcoming_SuspendedYield (options options' : SearchOptions)
      (o tf o' tf' : Z) (t t' : option Z) (p : SearchResponse) :
  upcoming (SuspendedYield options o tf t p) = Some (options', o', tf', t') ->
  options' = options /\ o' = end_ (range p)
  /\ tf' = tf + Z.of_nat (List.length (records p)) /\ tf' < total p.
Proof.
  cbn. destruct (Z.ltb_spec (tf + Z.of_nat (List.length (records p)))
                            (total p)) as [Hlt | Hge]; [ | discriminate].
  intros E; inversion E; subst. auto.
Qed.

Lemma upcoming_SuspendedYield_None (options : SearchOptions) (o tf : Z)
      (t : option Z) (p : SearchResponse) :
  upcoming (SuspendedYield options o tf t p) = None ->
  total p <= tf + Z.of_nat (List.length (records p)).
Proof.
  cbn. destruct (Z.ltb_spec (tf + Z.of_nat (List.length (records p)))
                            (total p)) as [Hlt | Hge]; [discriminate | auto].
Qed.

(** From a generator that stops when resumed, nothing is exchanged. *)
Lemma Traversal_stopped (this : SearchbaseSDK) (g : Generator)
      (es : list Exchange) (bs : list (list json)) (out : Outcome) :
  Traversal rev this g es bs out -> upcoming g = None ->
  es = [] /\ bs = [] /\ (out = Pending \/ out = Finished).
Proof. intros H U; inversion H; subst; auto; congruence. Qed.

Lemma Traversal_Finished (this : SearchbaseSDK) (g : Generator)
      (es : list Exchange) (bs : list (list json)) (out : Outcome) :
  Traversal rev this g es bs out -> out = Finished ->
  forall options o tf t,
    upcoming g = Some (options, o, tf, t) ->
    exists pages last,
      map (fun e => settle (settled e)) es = map Resolve (pages ++ [last])
      /\ map init es
         = map (fun o => requestOptions rev this (page_options options o))
               (o :: map (fun p => end_ (range p)) pages)
      /\ bs = map records (pages ++ [last])
      /\ total last <= tf + Z.of_nat (List.length (List.concat bs)).
Proof.
  induction 1 as [g | g U | g options o tf t e err U Hu Hi Hs
                 | g options o tf t e p es bs out U Hu Hi Hs Hsub IH];
    intros Hout options' o' tf' t' U'; try discriminate; try congruence.
  rewrite U in U'. inversion U'; subst options' o' tf' t'. clear U'.
  destruct (upcoming (SuspendedYield options o tf t p))
    as [[[[options2 o2] tf2] t2] | ] eqn:U2.
  - destruct (upcoming_SuspendedYield _ _ _ _ _ _ _ _ _ U2) as (-> & -> & -> & Hlt).
    destruct (IH Hout _ _ _ _ eq_refl) as (pages & last & Hs' & Hi' & Hb & Ht).
    exists (p :: pages), last. cbn [map app]. rewrite Hs, Hi, Hs', Hi'.
    repeat split.
    + rewrite Hb. reflexivity.
    + cbn [List.concat]. rewrite length_app. lia.
  - destruct (Traversal_stopped _ _ _ _ _ Hsub U2) as (-> & -> & _).
    apply upcoming_SuspendedYield_None in U2.
    exists [], p. cbn [map app List.concat]. rewrite Hs, Hi, app_nil_r.
    repeat split. lia.
Qed.

Lemma Traversal_Threw (this : SearchbaseSDK) (g : Generator)
      (es : list Exchange) (bs : list (list json)) (out : Outcome) :
  Traversal rev this g es bs out ->
  forall err, out = Threw err ->
  forall options o tf t,
    upcoming g = Some (options, o, tf, t) ->
    exists pages good bad,
      es = good ++ [bad]
      /\ map (fun e => settle (settled e)) good = map Resolve pages
      /\ settle (settled bad) = Reject err
      /\ bs = map records pages
      /\ map init es
         = map (fun o => requestOptions rev this (page_options options o))
               (o :: map (fun p => end_ (range p)) pages).
Proof.
  induction 1 as [g | g U | g options o tf t e err0 U Hu Hi Hs
                 | g options o tf t e p es bs out U Hu Hi Hs Hsub IH];
    intros err Hout options' o' tf' t' U'; try discriminate.
  - rewrite U in U'. inversion U'; subst options' o' tf' t'. clear U'.
    inversion Hout; subst err0.
    exists [], [], e. cbn. rewrite Hi. auto.
  - rewrite U in U'. inversion U'; subst options' o' tf' t'. clear U'.
    destruct (upcoming (SuspendedYield options o tf t p))
      as [[[[options2 o2] tf2] t2] | ] eqn:U2.
    + destruct (upcoming_SuspendedYield _ _ _ _ _ _ _ _ _ U2) as (-> & -> & -> & Hlt).
      destruct (IH _ Hout _ _ _ _ eq_refl)
        as (pages & good & bad & -> & Hg & Hb & -> & Hi').
      exists (p :: pages), (e :: good), bad. cbn [map app].
      rewrite Hs, Hi, Hg, Hi'. auto.
    + destruct (Traversal_stopped _ _ _ _ _ Hsub U2) as (_ & _ & [H | H]);
        congruence.
Qed.

Lemma sent_query_requestOptions (this : SearchbaseSDK) (e : Exchange)
      (options : SearchOptions) :
  init e = requestOptions rev this options ->
  sent_query e = query rev options.
Proof. unfold sent_query. intros ->. reflexivity. Qed.

Lemma Traversal_limit (this : SearchbaseSDK) (g : Generator)
      (es : list Exchange) (bs : list (list json)) (out : Outcome) :
  Traversal rev this g es bs out ->
  Forall (fun e => url e = (baseURL this ++ "/search")%string
                   /\ get "limit" (sent_query e) = Some (JNum 100)) es.
Proof.
  induction 1 as [g | g U | g options o tf t e err0 U Hu Hi Hs
                 | g options o tf t e p es bs out U Hu Hi Hs Hsub IH];
    [ apply Forall_nil | apply Forall_nil
    | apply Forall_cons; [ | apply Forall_nil]
    | apply Forall_cons; [ | exact IH] ];
    (split; [exact Hu | ]);
    rewrite (sent_query_requestOptions _ _ _ Hi), get_limit; reflexivity.
Qed.

Lemma page_limit (options : SearchOptions) (o : Z) :
  get "limit" (query rev (page_options options o)) = Some (JNum 100).
Proof. rewrite get_limit. reflexivity. Qed.

Lemma page_offset_zero (options : SearchOptions) :
  get "offset" (query rev (page_options options 0)) = None.
Proof.
  destruct rev; rewrite ?get_offset_index_ts, ?get_offset_part_001;
    reflexivity.
Qed.

Lemma page_offset_positive (options : SearchOptions) (o : Z) :
  0 < o ->
  get "offset" (query rev (page_options options o)) = Some (JNum o).
Proof.
  intros Ho.
  destruct rev; rewrite ?get_offset_index_ts, ?get_offset_part_001;
    cbn [offset page_options].
  - destruct (Z.eqb_spec o 0); [lia | reflexivity].
  - destruct (Z.ltb_spec 0 o); [reflexivity | lia].
Qed.

Lemma offsets_on_the_wire (this : SearchbaseSDK) (options : SearchOptions) :
  forall (pages : list SearchResponse) (es : list Exchange),
    map init es
    = map (fun o => requestOptions rev this (page_options options o))
          (map (fun p => end_ (range p)) pages) ->
    Forall2 (fun p e =>
               0 < end_ (range p) ->
               get "offset" (sent_query e) = Some (JNum (end_ (range p))))
            pages es.
Proof.
  induction pages as [ | p pages IH]; intros [ | e es] H;
    try discriminate; constructor.
  - intros Hp. cbn in H. injection H as Hi _.
    rewrite (sent_query_requestOptions _ _ _ Hi).
    apply page_offset_positive; assumption.
  - apply IH. cbn in H. injection H as _ H. exact H.
Qed.

(** One turn of the consumer loop, in terms of [upcoming] and [settle]. *)
Lemma for_await_S (fuel : nat) (this : SearchbaseSDK) (g : Generator)
      (rt : Runtime World) :
  for_await respond rev (S fuel) this g rt =
    match upcoming g with
    | None => {| batches := []; outcome := Finished;
                 generator := Completed; runtime := rt |}
    | Some (options, o, tf, t) =>
        match settle (settled (exchange_of respond rev this
                                           (page_options options o) rt)) with
        | Resolve p =>
            let r := for_await respond rev fuel this
                               (SuspendedYield options o tf t p)
                               (after respond rev this
                                      (page_options options o) rt) in
            {| batches := records p :: batches r; outcome := outcome r;
               generator := generator r; runtime := runtime r |}
        | Reject err =>
            {| batches := []; outcome := Threw err; generator := Completed;
               runtime := after respond rev this (page_options options o) rt |}
        end
    end.
Proof.
  cbn [for_await]. rewrite next_upcoming.
  destruct (upcoming g) as [[[[options o] tf] t] | ]; [ | reflexivity].
  rewrite fetch_page_run. destruct (settle _); reflexivity.
Qed.

Lemma settle_Resolve (c : Completion Response) (p : SearchResponse) :
  settle c = Resolve p -> exists st, c = Resolve (OkResponse st (Resolve p)).
Proof.
  destruct c as [[st j | st j] | e]; cbn.
  - intros ->. exists st. reflexivity.
  - destruct j as [d | e]; [destruct (errorData_message d) | ]; discriminate.
  - discriminate.
Qed.

(** *** The pagination driver *)

(** C7.  Once the consumer has pulled, the first request of a traversal
    is the one built from [offset = 0], whose body has no [offset], and
    every request of the traversal has [limit = 100], whatever the
    caller's options hold. *)
Theorem searchAll_requests (fuel : nat) (this : SearchbaseSDK)
        (options : SearchOptions) (rt : Runtime World) :
  exists e es,
    calls (runtime (for_await respond rev (S fuel) this (searchAll options) rt))
    = calls rt ++ e :: es
    /\ init e = requestOptions rev this (page_options options 0)
    /\ get "offset" (sent_query e) = None
    /\ Forall (fun e' => get "limit" (sent_query e') = Some (JNum 100))
              (e :: es).
Proof.
  rewrite for_await_S. cbn [upcoming searchAll].
  set (e := exchange_of respond rev this (page_options options 0) rt).
  assert (He : get "limit" (sent_query e) = Some (JNum 100))
    by apply page_limit.
  destruct (settle (settled e)) as [p | err].
  - destruct (for_await_Traversal fuel this
                (SuspendedYield options 0 0 None p)
                (after respond rev this (page_options options 0) rt))
      as [es [Hc Ht]].
    exists e, es. cbn [runtime]. rewrite Hc. cbn [after calls].
    rewrite <- app_assoc. repeat split.
    + apply page_offset_zero.
    + constructor; [exact He | ].
      eapply Forall_impl; [ | exact (Traversal_limit _ _ _ _ _ Ht)].
      intros a [_ Ha]; exact Ha.
  - exists e, []. cbn [runtime after calls]. repeat split.
    + apply page_offset_zero.
    + constructor; [exact He | constructor].
Qed.

(** C1 (amended).  In a traversal that runs to its end, every exchange
    succeeded; the first request is built from offset 0 and each later
    one from the [range.end] of the page before it, which is what its
    body carries when that value is positive; the batches are the
    [records] of the pages in order; and their concatenation is at least
    as long as the [total] of the last page. *)
Theorem searchAll_follows_range_end (fuel : nat) (this : SearchbaseSDK)
        (options : SearchOptions) (rt : Runtime World) :
  outcome (for_await respond rev fuel this (searchAll options) rt) = Finished ->
  exists es pages last,
    calls (runtime (for_await respond rev fuel this (searchAll options) rt))
    = calls rt ++ es
    /\ map (fun e => settle (settled e)) es = map Resolve (pages ++ [last])
    /\ map init es
       = map (fun o => requestOptions rev this (page_options options o))
             (0 :: map (fun p => end_ (range p)) pages)
    /\ Forall2 (fun p e =>
                  0 < end_ (range p) ->
                  get "offset" (sent_query e) = Some (JNum (end_ (range p))))
               pages (tl es)
    /\ batches (for_await respond rev fuel this (searchAll options) rt)
       = map records (pages ++ [last])
    /\ total last
       <= Z.of_nat
            (List.length
               (List.concat
                  (batches (for_await respond rev fuel this
                                      (searchAll options) rt)))).
Proof.
  intros Hout.
  destruct (for_await_Traversal fuel this (searchAll options) rt)
    as [es [Hc Ht]].
  destruct (Traversal_Finished _ _ _ _ _ Ht Hout options 0 0 None eq_refl)
    as (pages & last & Hs & Hi & Hb & Htot).
  exists es, pages, last. repeat split; try assumption.
  - destruct es as [ | e es]; [discriminate | ].
    cbn in Hi. injection Hi as _ Hi. cbn [tl].
    apply (offsets_on_the_wire this options); exact Hi.
Qed.

(** C6.  When the fetch of a page fails, that call of [next] rejects with
    the error of the fetch and completes the generator, after that one
    exchange.  In a traversal that ends in a failure, the consumer
    receives that very error; the exchanges are the successful ones
    followed by the failing one, which comes last and once; the batches
    received are exactly the [records] of the successful pages; the
    generator is completed, so that pulling again fetches nothing; and
    giving the consumer more turns changes nothing. *)
Theorem searchAll_failure_propagates (fuel : nat) (this : SearchbaseSDK)
        (options : SearchOptions) (rt : Runtime World) (err : thrown) :
  (forall g options' o tf t rt',
      upcoming g = Some (options', o, tf, t) ->
      settle (settled (exchange_of respond rev this
                                   (page_options options' o) rt'))
      = Reject err ->
      next respond rev this g rt'
      = (Reject err, Completed,
         after respond rev this (page_options options' o) rt'))
  /\
  (outcome (for_await respond rev fuel this (searchAll options) rt)
   = Threw err ->
   exists pages good bad,
    calls (runtime (for_await respond rev fuel this (searchAll options) rt))
    = calls rt ++ good ++ [bad]
    /\ map (fun e => settle (settled e)) good = map Resolve pages
    /\ settle (settled bad) = Reject err
    /\ batches (for_await respond rev fuel this (searchAll options) rt)
       = map records pages
    /\ generator (for_await respond rev fuel this (searchAll options) rt)
       = Completed
    /\ next respond rev this Completed
            (runtime (for_await respond rev fuel this (searchAll options) rt))
       = (Resolve Return, Completed,
          runtime (for_await respond rev fuel this (searchAll options) rt))
    /\ forall extra,
        for_await respond rev (fuel + extra) this (searchAll options) rt
        = for_await respond rev fuel this (searchAll options) rt).
Proof.
  split.
  { intros g options' o tf t rt' U Hs.
    rewrite next_upcoming, U, fetch_page_run, Hs. reflexivity. }
  intros Hout.
  destruct (for_await_Traversal fuel this (searchAll options) rt)
    as [es [Hc Ht]].
  destruct (Traversal_Threw _ _ _ _ _ Ht err Hout options 0 0 None eq_refl)
    as (pages & good & bad & -> & Hg & Hb & Hbs & _).
  exists pages, good, bad. repeat split; try assumption.
  - apply for_await_Completed. rewrite Hout. discriminate.
  - intros extra. apply for_await_more. rewrite Hout. discriminate.
Qed.

(** C2 (amended).  When the first page reports [total = 0], the traversal
    performs that one fetch, yields that page's [records] as its single
    batch, and ends without error. *)
Theorem searchAll_total_zero (fuel : nat) (this : SearchbaseSDK)
        (options : SearchOptions) (rt : Runtime World)
        (st : Z) (p : SearchResponse) (w : World) :
  respond (baseURL this ++ "/search")%string
          (requestOptions rev this (page_options options 0)) (world rt)
  = (Resolve (OkResponse st (Resolve p)), w) ->
  total p = 0 ->
  batches (for_await respond rev (S (S fuel)) this (searchAll options) rt)
  = [records p]
  /\ outcome (for_await respond rev (S (S fuel)) this (searchAll options) rt)
     = Finished
  /\ calls (runtime (for_await respond rev (S (S fuel)) this
                               (searchAll options) rt))
     = calls rt ++ [exchange_of respond rev this (page_options options 0) rt].
Proof.
  intros H Ht.
  assert (Hs : settle (settled (exchange_of respond rev this
                                            (page_options options 0) rt))
               = Resolve p)
    by (unfold exchange_of; rewrite H; reflexivity).
  rewrite for_await_S. cbn [upcoming searchAll]. rewrite Hs.
  cbv zeta. cbn [batches outcome runtime].
  rewrite for_await_S.
  destruct (upcoming (SuspendedYield options 0 0 None p))
    as [[[[options' o'] tf'] t'] | ] eqn:U.
  - apply upcoming_SuspendedYield in U. lia.
  - repeat split.
Qed.

(** *** Termination *)

Lemma respond_settle (this : SearchbaseSDK) (options : SearchOptions)
      (rt : Runtime World) (p : SearchResponse) :
  settle (settled (exchange_of respond rev this options rt)) = Resolve p ->
  exists st w,
    respond (baseURL this ++ "/search")%string
            (requestOptions rev this options) (world rt)
    = (Resolve (OkResponse st (Resolve p)), w).
Proof.
  intros H. apply settle_Resolve in H. destruct H as [st H].
  unfold exchange_of in H. cbn [settled] in H.
  exists st. eexists. rewrite <- H. apply surjective_pairing.
Qed.

(** The first turn of a loop that has a page to request logs the exchange
    of that request, however it settles. *)
Lemma logged_first (P : Exchange -> Prop) (this : SearchbaseSDK)
      (g : Generator) (rt : Runtime World) options o tf t :
  upcoming g = Some (options, o, tf, t) ->
  (forall fuel es,
      calls (runtime (for_await respond rev fuel this g rt)) = calls rt ++ es ->
      forall e, In e es -> P e) ->
  P (exchange_of respond rev this (page_options options o) rt).
Proof.
  intros U H.
  apply (H 1%nat [exchange_of respond rev this (page_options options o) rt]);
    [ | left; reflexivity].
  rewrite for_await_S, U. destruct (settle _); reflexivity.
Qed.

(** What holds of every exchange a loop logs holds of every exchange it
    logs after its first page. *)
Lemma logged_rest (P : Exchange -> Prop) (this : SearchbaseSDK)
      (g : Generator) (rt : Runtime World) options o tf t p :
  upcoming g = Some (options, o, tf, t) ->
  settle (settled (exchange_of respond rev this (page_options options o) rt))
  = Resolve p ->
  (forall fuel es,
      calls (runtime (for_await respond rev fuel this g rt)) = calls rt ++ es ->
      forall e, In e es -> P e) ->
  forall fuel es,
    calls (runtime (for_await respond rev fuel this
                              (SuspendedYield options o tf t p)
                              (after respond rev this
                                     (page_options options o) rt)))
    = calls (after respond rev this (page_options options o) rt) ++ es ->
    forall e, In e es -> P e.
Proof.
  intros U Hs H fuel es Hc e Hin.
  apply (H (S fuel)
           (exchange_of respond rev this (page_options options o) rt :: es));
    [ | right; exact Hin].
  rewrite for_await_S, U, Hs. cbv zeta. cbn [runtime]. rewrite Hc.
  cbn [after calls]. rewrite <- app_assoc. reflexivity.
Qed.

(** Every exchange a loop logs holds what the service answered to the
    request it holds. *)
Lemma logged_from_respond (this : SearchbaseSDK) :
  forall (fuel : nat) (g : Generator) (rt : Runtime World) es,
    calls (runtime (for_await respond rev fuel this g rt)) = calls rt ++ es ->
    forall e, In e es ->
              exists w, settled e = fst (respond (url e) (init e) w).
Proof.
  induction fuel as [ | fuel IH]; intros g rt es Hc e Hin.
  - cbn in Hc. rewrite <- (app_nil_r (calls rt)) in Hc at 1.
    apply app_inv_head in Hc. subst es. contradiction.
  - rewrite for_await_S in Hc.
    destruct (upcoming g) as [[[[options o] tf] t] | ].
    + destruct (settle _) as [p | err].
      * cbv zeta in Hc. cbn [runtime] in Hc.
        destruct (for_await_Traversal fuel this
                    (SuspendedYield options o tf t p)
                    (after respond rev this (page_options options o) rt))
          as [es' [Hc' _]].
        rewrite Hc' in Hc. cbn [after calls] in Hc.
        rewrite <- app_assoc in Hc. apply app_inv_head in Hc. subst es.
        destruct Hin as [<- | Hin].
        -- exists (world rt). reflexivity.
        -- exact (IH _ _ _ Hc' e Hin).
      * cbn [runtime after calls] in Hc. apply app_inv_head in Hc. subst es.
        destruct Hin as [<- | []]. exists (world rt). reflexivity.
    + cbn [runtime] in Hc. rewrite <- (app_nil_r (calls rt)) in Hc at 1.
      apply app_inv_head in Hc. subst es. contradiction.
Qed.

Lemma for_await_terminates_from_yield (T : Z) (this : SearchbaseSDK) :
  forall (m : nat) (options : SearchOptions) (o tf : Z) (t : option Z)
         (p : SearchResponse) (rt : Runtime World),
    (forall fuel es,
        calls (runtime (for_await respond rev fuel this
                                  (SuspendedYield options o tf t p) rt))
        = calls rt ++ es ->
        forall e, In e es ->
                  forall st p',
                    settled e = Resolve (OkResponse st (Resolve p')) ->
                    records p' <> [] /\ total p' <= T) ->
    total p <= T ->
    T - (tf + Z.of_nat (List.length (records p))) <= Z.of_nat m ->
    outcome (for_await respond rev (S m) this
                       (SuspendedYield options o tf t p) rt) <> Pending
    /\ (List.length
          (calls (runtime (for_await respond rev (S m) this
                                     (SuspendedYield options o tf t p) rt)))
        <= List.length (calls rt) + m)%nat.
Proof.
  induction m as [ | m IH]; intros options o tf t p rt H Hp Hm;
    rewrite for_await_S;
    destruct (upcoming (SuspendedYield options o tf t p))
      as [[[[options' o'] tf'] t'] | ] eqn:U;
    try (cbn; split; [discriminate | lia]).
  - apply upcoming_SuspendedYield in U. lia.
  - destruct (upcoming_SuspendedYield _ _ _ _ _ _ _ _ _ U)
      as (-> & -> & -> & Hlt).
    destruct (settle _) as [p' | err] eqn:Hs.
    + destruct (settle_Resolve _ _ Hs) as [st Hst].
      destruct (logged_first _ this _ rt _ _ _ _ U H st p' Hst) as [Hne Hle].
      cbv zeta. cbn [outcome runtime].
      edestruct (IH options (end_ (range p))
                    (tf + Z.of_nat (List.length (records p))) t' p'
                    (after respond rev this
                           (page_options options (end_ (range p))) rt))
        as [Ho Hc];
        [exact (logged_rest _ this _ rt _ _ _ _ p' U Hs H) | exact Hle | | ].
      * destruct (records p'); [congruence | ].
        cbn [List.length]. lia.
      * split; [exact Ho | ].
        cbn [after calls] in Hc. rewrite length_app in Hc.
        cbn [List.length] in Hc. lia.
    + cbn [outcome runtime after calls]. split; [discriminate | ].
      rewrite length_app. cbn [List.length]. lia.
Qed.

Lemma for_await_stalls (this : SearchbaseSDK) :
  forall (fuel : nat) (g : Generator) (rt : Runtime World),
    (exists options o t, upcoming g = Some (options, o, 0, t)) ->
    (forall fuel' es,
        calls (runtime (for_await respond rev fuel' this g rt))
        = calls rt ++ es ->
        forall e, In e es ->
                  exists st p,
                    settled e = Resolve (OkResponse st (Resolve p))
                    /\ records p = [] /\ 0 < total p) ->
    outcome (for_await respond rev fuel this g rt) = Pending.
Proof.
  induction fuel as [ | fuel IH]; intros g rt (options & o & t & U) H.
  - reflexivity.
  - destruct (logged_first _ this _ rt _ _ _ _ U H) as (st & p & Hst & He & Hp).
    assert (Hs : settle (settled (exchange_of respond rev this
                                              (page_options options o) rt))
                 = Resolve p) by (rewrite Hst; reflexivity).
    rewrite for_await_S, U, Hs. cbv zeta. cbn [outcome].
    apply IH.
    + exists options, (end_ (range p)), (Some (total p)).
      cbn. rewrite He. cbn.
      destruct (Z.ltb_spec 0 (total p)); [reflexivity | lia].
    + exact (logged_rest _ this _ rt _ _ _ _ p U Hs H).
Qed.

(** C9 (amended).  If every successful response the traversal receives
    carries at least one record and reports a [total] of at most [T], the
    traversal ends after at most [max 1 T] fetches.  If every response it
    receives is successful, empty, and reports a positive [total], the
    traversal never ends.  Both conditions bear on the exchanges the
    traversal logs, not on what the service would answer elsewhere. *)
Theorem searchAll_termination (this : SearchbaseSDK)
        (options : SearchOptions) (rt : Runtime World) :
  (forall T,
      (forall fuel es,
          calls (runtime (for_await respond rev fuel this
                                    (searchAll options) rt))
          = calls rt ++ es ->
          forall e, In e es ->
                    forall st p,
                      settled e = Resolve (OkResponse st (Resolve p)) ->
                      records p <> [] /\ total p <= T) ->
      exists fuel,
        outcome (for_await respond rev fuel this (searchAll options) rt)
        <> Pending
        /\ (List.length
              (calls (runtime (for_await respond rev fuel this
                                         (searchAll options) rt)))
            <= List.length (calls rt) + Z.to_nat (Z.max 1 T))%nat)
  /\ ((forall fuel es,
          calls (runtime (for_await respond rev fuel this
                                    (searchAll options) rt))
          = calls rt ++ es ->
          forall e, In e es ->
                    exists st p,
                      settled e = Resolve (OkResponse st (Resolve p))
                      /\ records p = [] /\ 0 < total p) ->
      forall fuel,
        outcome (for_await respond rev fuel this (searchAll options) rt)
        = Pending).
Proof.
  split.
  - intros T H. exists (S (S (Z.to_nat (T - 1)))).
    assert (U : upcoming (searchAll options) = Some (options, 0, 0, None))
      by reflexivity.
    rewrite for_await_S, U.
    destruct (settle _) as [p | err] eqn:Hs.
    + destruct (settle_Resolve _ _ Hs) as [st Hst].
      destruct (logged_first _ this _ rt _ _ _ _ U H st p Hst) as [Hne Hle].
      cbv zeta. cbn [outcome runtime].
      edestruct (for_await_terminates_from_yield T this
                   (Z.to_nat (T - 1)) options 0 0 None p
                   (after respond rev this (page_options options 0) rt))
        as [Ho Hc];
        [exact (logged_rest _ this _ rt _ _ _ _ p U Hs H) | exact Hle | | ].
      * destruct (records p); [congruence | ].
        cbn [List.length]. lia.
      * split; [exact Ho | ].
        cbn [after calls] in Hc. rewrite length_app in Hc.
        cbn [List.length] in Hc. lia.
    + cbn [outcome runtime after calls]. split; [discriminate | ].
      rewrite length_app. cbn [List.length]. lia.
  - intros H fuel. apply for_await_stalls; [ | exact H].
    exists options, 0, None. reflexivity.
Qed.

End Facts.

(** * Examples *)

(** C5: the code departs from the documented single error kind.  A
    success status whose body is not JSON makes [response.json()] reject
    inside [search], outside the [try] of [fetchWithErrorHandling]: the
    raw error reaches the caller of [search], and the consumer of
    [searchAll], without being wrapped in a [SearchError]. *)
Theorem search_leaks_parse_error :
  fst (search mockedFetch index_ts sdk test_index
              (mocked [Resolve (OkResponse 200 (Reject SyntaxError))]))
  = Reject SyntaxError
  /\ fst (search mockedFetch part_001 sdk test_index
                 (mocked [Resolve (OkResponse 200 (Reject SyntaxError))]))
     = Reject SyntaxError
  /\ outcome (for_await mockedFetch part_001 3 sdk (searchAll test_index)
                        (mocked [Resolve (OkResponse 200 (Reject SyntaxError))]))
     = Threw SyntaxError
  /\ instanceof_SearchError SyntaxError = false.
Proof. repeat split. Qed.

Lemma search_returns_decoded_body_witness :
  fst (search mockedFetch part_001 sdk test_index (mocked two_pages))
  = Resolve {| total := 3; range := {| start := 0; end_ := 2 |};
               records := [record "1" "Record 1"; record "2" "Record 2"] |}.
Proof.
  apply (search_returns_decoded_body _ mockedFetch part_001 sdk test_index
           (mocked two_pages) 200 _ (tl two_pages)).
  reflexivity.
Defined.

Lemma search_failure_status_witness :
  fst (search mockedFetch part_001 sdk test_index (mocked (tl page_then_500)))
  = Reject (SearchError "index not found").
Proof.
  apply (proj1 (search_failure_status _ mockedFetch part_001 sdk test_index
                  (mocked (tl page_then_500)) 500
                  (Resolve (JObj [("message", JStr "index not found")]))
                  [] eq_refl)
               [("message", JStr "index not found")] "index not found").
  - reflexivity.
  - reflexivity.
  - discriminate.
Defined.

(** C4 as stated fails: with a failure status and a body that is not JSON
    there is no parseable message, and the error is not the generic one. *)
Lemma search_unparseable_error_body :
  fst (search mockedFetch part_001 sdk test_index
              (mocked [Resolve (ErrorResponse 500 (Reject SyntaxError))]))
  = Reject (SearchError
              "Network error: Unexpected token < in JSON at position 0")
  /\ fst (search mockedFetch part_001 sdk test_index
                 (mocked [Resolve (ErrorResponse 500 (Reject SyntaxError))]))
     <> Reject (SearchError "HTTP error! status: 500").
Proof. split; [reflexivity | discriminate]. Qed.

Lemma searchAll_follows_range_end_witness :
  exists es pages last,
    calls (runtime (for_await mockedFetch part_001 5 sdk
                              (searchAll test_index) (mocked two_pages)))
    = calls (mocked two_pages) ++ es
    /\ map (fun e => settle (settled e)) es = map Resolve (pages ++ [last])
    /\ map init es
       = map (fun o => requestOptions part_001 sdk (page_options test_index o))
             (0 :: map (fun p => end_ (range p)) pages)
    /\ Forall2 (fun p e =>
                  0 < end_ (range p) ->
                  get "offset" (sent_query e) = Some (JNum (end_ (range p))))
               pages (tl es)
    /\ batches (for_await mockedFetch part_001 5 sdk
                          (searchAll test_index) (mocked two_pages))
       = map records (pages ++ [last])
    /\ total last
       <= Z.of_nat
            (List.length
               (List.concat
                  (batches (for_await mockedFetch part_001 5 sdk
                                      (searchAll test_index)
                                      (mocked two_pages))))).
Proof.
  apply (searchAll_follows_range_end _ mockedFetch part_001 5 sdk test_index
           (mocked two_pages)).
  reflexivity.
Defined.

(** C1 as stated fails: the server reports five matches, then three; the
    traversal ends after two pages with four records, and the last total
    observed is three. *)
Lemma searchAll_overshoots_total :
  outcome (for_await mockedFetch part_001 5 sdk (searchAll test_index)
                     (mocked shrinking)) = Finished
  /\ map (fun e => match settle (settled e) with
                    | Resolve p => Some (total p)
                    | Reject _ => None
                    end)
         (calls (runtime (for_await mockedFetch part_001 5 sdk
                                    (searchAll test_index) (mocked shrinking))))
     = [Some 5; Some 3]
  /\ List.length
       (List.concat
          (batches (for_await mockedFetch part_001 5 sdk
                              (searchAll test_index) (mocked shrinking))))
     = 4%nat.
Proof. repeat split. Qed.

Lemma searchAll_total_zero_witness :
  batches (for_await mockedFetch part_001 2 sdk (searchAll test_index)
                     (mocked [Resolve (page 0 0 0 [])]))
  = [[]]
  /\ outcome (for_await mockedFetch part_001 2 sdk (searchAll test_index)
                        (mocked [Resolve (page 0 0 0 [])]))
     = Finished
  /\ calls (runtime (for_await mockedFetch part_001 2 sdk
                               (searchAll test_index)
                               (mocked [Resolve (page 0 0 0 [])])))
     = calls (mocked [Resolve (page 0 0 0 [])])
       ++ [exchange_of mockedFetch part_001 sdk (page_options test_index 0)
                       (mocked [Resolve (page 0 0 0 [])])].
Proof.
  apply (searchAll_total_zero _ mockedFetch part_001 0 sdk test_index
           (mocked [Resolve (page 0 0 0 [])]) 200
           {| total := 0; range := {| start := 0; end_ := 0 |}; records := [] |}
           []).
  - reflexivity.
  - reflexivity.
Defined.

(** C2 as stated fails: with [total = 0] on the first page the consumer
    still receives one batch, the empty one. *)
Lemma searchAll_total_zero_yields_a_batch :
  batches (for_await mockedFetch part_001 5 sdk (searchAll test_index)
                     (mocked [Resolve (page 0 0 0 [])]))
  = [[]]
  /\ batches (for_await mockedFetch index_ts 5 sdk (searchAll test_index)
                        (mocked [Resolve (page 0 0 0 [])]))
     <> [].
Proof. split; [reflexivity | discriminate]. Qed.

Lemma searchAll_failure_propagates_witness :
  exists pages good bad,
    calls (runtime (for_await mockedFetch part_001 5 sdk
                              (searchAll test_index) (mocked page_then_500)))
    = calls (mocked page_then_500) ++ good ++ [bad]
    /\ map (fun e => settle (settled e)) good = map Resolve pages
    /\ settle (settled bad) = Reject (SearchError "index not found")
    /\ batches (for_await mockedFetch part_001 5 sdk
                          (searchAll test_index) (mocked page_then_500))
       = map records pages
    /\ generator (for_await mockedFetch part_001 5 sdk
                            (searchAll test_index) (mocked page_then_500))
       = Completed
    /\ next mockedFetch part_001 sdk Completed
            (runtime (for_await mockedFetch part_001 5 sdk
                                (searchAll test_index) (mocked page_then_500)))
       = (Resolve Return, Completed,
          runtime (for_await mockedFetch part_001 5 sdk
                             (searchAll test_index) (mocked page_then_500)))
    /\ forall extra,
        for_await mockedFetch part_001 (5 + extra) sdk (searchAll test_index)
                  (mocked page_then_500)
        = for_await mockedFetch part_001 5 sdk (searchAll test_index)
                    (mocked page_then_500).
Proof.
  apply (proj2 (searchAll_failure_propagates _ mockedFetch part_001 5 sdk
                  test_index (mocked page_then_500)
                  (SearchError "index not found"))).
  reflexivity.
Defined.

Lemma searchAll_termination_witness :
  (exists fuel,
      outcome (for_await mockedFetch part_001 fuel sdk (searchAll test_index)
                         (mocked two_pages))
      <> Pending
      /\ (List.length
            (calls (runtime (for_await mockedFetch part_001 fuel sdk
                                       (searchAll test_index)
                                       (mocked two_pages))))
          <= List.length (calls (mocked two_pages)) + Z.to_nat (Z.max 1 3))%nat)
  /\ forall fuel,
      outcome (for_await stalling part_001 fuel sdk (searchAll test_index)
                         (fresh tt))
      = Pending.
Proof.
  split.
  - apply (proj1 (searchAll_termination _ mockedFetch part_001 sdk test_index
                    (mocked two_pages)) 3).
    intros fuel es Hc e Hin st p He.
    destruct fuel as [ | [ | [ | fuel]]];
      [ | |
        | change (S (S (S fuel))) with (3 + fuel)%nat in Hc;
          rewrite for_await_more in Hc by (vm_compute; discriminate) ];
      vm_compute in Hc; subst es; cbn [In] in Hin;
      repeat (destruct Hin as [<- | Hin]); try contradiction;
      cbn [settled] in He; injection He as <- <-;
      (split; [discriminate | cbn; lia]).
  - apply (proj2 (searchAll_termination _ stalling part_001 sdk test_index
                    (fresh tt))).
    intros fuel es Hc e Hin.
    destruct (logged_from_respond _ stalling part_001 sdk fuel _ _ es Hc e Hin)
      as [w Hw].
    exists 200, {| total := 1; range := {| start := 0; end_ := 0 |};
                   records := [] |}.
    split; [rewrite Hw; reflexivity | ].
    split; [reflexivity | cbn; lia].
Defined.

Lemma growing_pending (rev : revision) :
  forall (fuel : nat) (g : Generator) (rt : Runtime Z),
    (exists options o t, upcoming g = Some (options, o, world rt, t)) ->
    outcome (for_await growing rev fuel sdk g rt) = Pending.
Proof.
  induction fuel as [ | fuel IH]; intros g rt (options & o & t & U).
  - reflexivity.
  - rewrite for_await_S, U.
    cbn [exchange_of settled fst growing page settle outcome].
    apply IH.
    exists options, (world rt + 1), (Some (world rt + 2)).
    cbn. destruct (Z.ltb_spec (world rt + 1) (world rt + 2));
      [reflexivity | lia].
Qed.

(** C9 as stated fails.  Every response of [growing] carries a record, yet
    the traversal never ends, because the reported total stays ahead of the
    count; and a single page of one record that reports [total = 0] costs
    one fetch, which is more than [total]. *)
Lemma searchAll_growing_total_never_ends :
  (forall u i w st p w',
      growing u i w = (Resolve (OkResponse st (Resolve p)), w') ->
      records p <> [])
  /\ (forall fuel,
        outcome (for_await growing part_001 fuel sdk (searchAll test_index)
                           (fresh 0))
        = Pending)
  /\ List.length
       (calls (runtime (for_await mockedFetch part_001 5 sdk
                                  (searchAll test_index)
                                  (mocked [Resolve (page 0 0 1 [JNull])]))))
     = 1%nat.
Proof.
  split; [ | split].
  - intros u i w st p w' H. inversion H; subst. discriminate.
  - intros fuel. apply growing_pending.
    exists test_index, 0, None. reflexivity.
  - reflexivity.
Qed.

(** * Further properties of the request builder *)

(** X1.  The [query] object holds exactly its values at the six keys
    [index], [filters], [sort], [select], [limit], [offset], in that order
    and each at most once: the spreads never add another key, repeat one, or
    reorder them. *)
Theorem query_keys_in_order (rev : revision) (options : SearchOptions) :
  query rev options
  = flat_map (fun k => match get k (query rev options) with
                       | Some v => [(k, v)]
                       | None => []
                       end)
             ["index"; "filters"; "sort"; "select"; "limit"; "offset"].
Proof. destruct rev; query_cases options; reflexivity. Qed.

Lemma map_injective {A B : Type} (f : A -> B) :
  (forall a b, f a = f b -> a = b) ->
  forall l1 l2, map f l1 = map f l2 -> l1 = l2.
Proof.
  intros Hf. induction l1 as [ | a l1 IH]; intros [ | b l2] H;
    try discriminate; [reflexivity | ].
  cbn in H. injection H as Hab Hl. f_equal; [apply Hf | apply IH]; assumption.
Qed.

Lemma option_map_injective {A B : Type} (f : A -> B) :
  (forall a b, f a = f b -> a = b) ->
  forall x y, option_map f x = option_map f y -> x = y.
Proof.
  intros Hf [a | ] [b | ] H; try discriminate; [ | reflexivity].
  cbn in H. injection H as H. f_equal. apply Hf. exact H.
Qed.

Lemma Filter_to_json_injective (f g : Filter.t) :
  Filter.to_json f = Filter.to_json g -> f = g.
Proof. destruct f, g. cbn. intros H. injection H as -> -> ->. reflexivity. Qed.

Lemma Sort_to_json_injective (s r : Sort.t) :
  Sort.to_json s = Sort.to_json r -> s = r.
Proof.
  destruct s as [f [ | ]], r as [g [ | ]]; cbn; intros H;
    injection H as ->; try discriminate; reflexivity.
Qed.

(** X2.  The request body loses nothing of the query proper: two option
    objects that give the same body have the same [index], [filters],
    [sort] and [select], and the same [limit] once a [limit] of 0 is read
    as absent. *)
Theorem body_determines_query (rev : revision) (o1 o2 : SearchOptions) :
  body rev o1 = body rev o2 ->
  index o1 = index o2
  /\ filters o1 = filters o2
  /\ sort o1 = sort o2
  /\ select o1 = select o2
  /\ match limit o1 with Some 0 => None | l => l end
     = match limit o2 with Some 0 => None | l => l end.
Proof.
  unfold body. intros H. injection H as H.
  assert (Hg : forall k, get k (query rev o1) = get k (query rev o2))
    by (intros k; rewrite H; reflexivity).
  repeat split.
  - specialize (Hg "index"). rewrite !get_index in Hg.
    injection Hg as Hg. exact Hg.
  - specialize (Hg "filters"). rewrite !get_filters in Hg.
    revert Hg. apply option_map_injective. intros a b E.
    injection E as E. revert E. apply map_injective.
    exact Filter_to_json_injective.
  - specialize (Hg "sort"). rewrite !get_sort in Hg.
    revert Hg. apply option_map_injective. intros a b E.
    injection E as E. revert E. apply map_injective.
    exact Sort_to_json_injective.
  - specialize (Hg "select"). rewrite !get_select in Hg.
    revert Hg. apply option_map_injective. intros a b E.
    injection E as E. revert E. apply map_injective.
    intros x y E. injection E as E. exact E.
  - specialize (Hg "limit"). rewrite !get_limit in Hg.
    destruct (limit o1) as [[ | n | n] | ], (limit o2) as [[ | m | m] | ];
      cbn in Hg; try discriminate; try reflexivity;
      injection Hg as Hg; rewrite Hg; reflexivity.
Qed.

Lemma body_determines_query_witness :
  index (with_offset 0) = index (with_offset 0)
  /\ filters (with_offset 0)
     = filters {| index := "test-index"; filters := None; sort := None;
                  select := None; limit := Some 10; offset := None |}
  /\ sort (with_offset 0) = None
  /\ select (with_offset 0) = None
  /\ Some 10 = Some 10.
Proof.
  apply (body_determines_query index_ts (with_offset 0)
           {| index := "test-index"; filters := None; sort := None;
              select := None; limit := Some 10; offset := None |}).
  reflexivity.
Defined.

(** * Further properties of the single-page fetch *)

Section Coverage.

Variable World : Type.
Variable respond :
  string -> RequestInit.t -> World -> Completion Response * World.
Variable rev : revision.

(** X3.  Whatever the transport does, [fetchWithErrorHandling] fails only
    with a [SearchError]; and a [SearchError] that the transport itself
    raised is passed on as it is, without a second wrapping. *)
Theorem fetchWithErrorHandling_fails_with_SearchError
        (u : string) (i : RequestInit.t) (rt : Runtime World) :
  (forall e rt',
      fetchWithErrorHandling respond u i rt = (Reject e, rt') ->
      instanceof_SearchError e = true)
  /\ (forall m w,
        respond u i (world rt) = (Reject (SearchError m), w) ->
        fst (fetchWithErrorHandling respond u i rt) = Reject (SearchError m)).
Proof.
  unfold fetchWithErrorHandling, try_catch, bind. rewrite fetch_run. split.
  - intros e rt'.
    destruct (fst (respond u i (world rt))) as [[st j | st j] | e0]; cbn.
    + discriminate.
    + destruct j as [d | e1]; cbn.
      * destruct (errorData_message d) as [m | e1]; cbn.
        -- intros H; injection H as <- _. reflexivity.
        -- destruct (instanceof_SearchError e1) eqn:E; cbn;
             intros H; injection H as <- _; [exact E | reflexivity].
      * destruct (instanceof_SearchError e1) eqn:E; cbn;
          intros H; injection H as <- _; [exact E | reflexivity].
    + destruct (instanceof_SearchError e0) eqn:E; cbn;
        intros H; injection H as <- _; [exact E | reflexivity].
  - intros m w H. rewrite H. reflexivity.
Qed.

(** X4.  [search] fails with something other than a [SearchError] in one
    situation only: [fetch] resolved with a success status and
    [response.json()] rejected with that error. *)
Theorem search_leaks_only_parse_errors
        (this : SearchbaseSDK) (options : SearchOptions) (rt : Runtime World)
        (e : thrown) :
  instanceof_SearchError e = false ->
  (fst (search respond rev this options rt) = Reject e
   <-> exists st,
       fst (respond (baseURL this ++ "/search")%string
                    (requestOptions rev this options) (world rt))
       = Resolve (OkResponse st (Reject e))).
Proof.
  intros He. rewrite search_settle. unfold exchange_of. cbn [fst settled].
  destruct (fst (respond _ _ (world rt))) as [[st j | st j] | e0]; cbn.
  - split.
    + intros ->. exists st. reflexivity.
    + intros [st' H]. injection H as _ H. exact H.
  - split.
    + destruct j as [d | e1]; [destruct (errorData_message d) as [m | e1] | ];
        try (unfold rethrow; destruct (instanceof_SearchError e1) eqn:E);
        intros H; injection H as <-; cbn in He; congruence.
    + intros [st' H]. discriminate.
  - split.
    + unfold rethrow. destruct (instanceof_SearchError e0) eqn:E;
        intros H; injection H as <-; cbn in He; congruence.
    + intros [st' H]. discriminate.
Qed.

(** X5.  A call of [search] performs exactly one [fetch], whether it
    succeeds or fails: a [POST] to [<baseURL>/search], which for an SDK made
    by the constructor is [https://api.searchbase.dev/search], with the JSON
    content type, the caller's token in [x-searchbase-token], and the body
    built from the options. *)
Theorem search_one_request
        (apiToken : string) (options : SearchOptions) (rt : Runtime World) :
  exists e,
    calls (snd (search respond rev (new_SearchbaseSDK apiToken) options rt))
    = calls rt ++ [e]
    /\ url e = "https://api.searchbase.dev/search"
    /\ RequestInit.method (init e) = "POST"
    /\ RequestInit.headers (init e)
       = [("Content-Type", "application/json");
          ("x-searchbase-token", apiToken)]
    /\ RequestInit.body (init e) = body rev options.
Proof.
  rewrite search_settle.
  exists (exchange_of respond rev (new_SearchbaseSDK apiToken) options rt).
  repeat split.
Qed.

End Coverage.

Lemma search_leaks_only_parse_errors_witness :
  fst (search mockedFetch part_001 sdk test_index
              (mocked [Resolve (OkResponse 200 (Reject SyntaxError))]))
  = Reject SyntaxError
  <-> exists st,
      fst (mockedFetch (baseURL sdk ++ "/search")%string
                       (requestOptions part_001 sdk test_index)
                       (world (mocked [Resolve (OkResponse 200
                                                  (Reject SyntaxError))])))
      = Resolve (OkResponse st (Reject SyntaxError)).
Proof.
  apply (search_leaks_only_parse_errors _ mockedFetch part_001 sdk test_index
           (mocked [Resolve (OkResponse 200 (Reject SyntaxError))])
           SyntaxError).
  reflexivity.
Defined.

Lemma fetchWithErrorHandling_fails_with_SearchError_witness :
  instanceof_SearchError (SearchError "index not found") = true
  /\ fst (fetchWithErrorHandling mockedFetch "u"
            (requestOptions part_001 sdk test_index)
            (mocked [Reject (SearchError "aborted")]))
     = Reject (SearchError "aborted").
Proof.
  split.
  - apply (proj1 (fetchWithErrorHandling_fails_with_SearchError
                    _ mockedFetch "u" (requestOptions part_001 sdk test_index)
                    (mocked (tl page_then_500)))
                 (SearchError "index not found")
                 {| world := [];
                    calls := [{| url := "u";
                                 init := requestOptions part_001 sdk test_index;
                                 settled := hd (Reject SyntaxError)
                                               (tl page_then_500) |}] |}).
    reflexivity.
  - apply (proj2 (fetchWithErrorHandling_fails_with_SearchError
                    _ mockedFetch "u" (requestOptions part_001 sdk test_index)
                    (mocked [Reject (SearchError "aborted")]))
                 "aborted" []).
    reflexivity.
Defined.

(** * Further properties of the pagination driver *)

Section Pagination.

Variable World : Type.
Variable respond :
  string -> RequestInit.t -> World -> Completion Response * World.
Variable rev : revision.

Lemma Traversal_prefix (this : SearchbaseSDK) (g : Generator)
      (es : list Exchange) (bs : list (list json)) (out : Outcome) :
  Traversal rev this g es bs out ->
  forall options o tf t,
    upcoming g = Some (options, o, tf, t) ->
    exists pages,
      bs = map records pages
      /\ map (fun e => settle (settled e)) (firstn (List.length pages) es)
         = map Resolve pages
      /\ map init es
         = map (fun o => requestOptions rev this (page_options options o))
               (firstn (List.length es)
                       (o :: map (fun p => end_ (range p)) pages))
      /\ List.length es
         = (List.length pages
            + match out with Threw _ => 1 | _ => 0 end)%nat.
Proof.
  induction 1 as [g | g U | g options o tf t e err0 U Hu Hi Hs
                 | g options o tf t e p es bs out U Hu Hi Hs Hsub IH];
    intros options' o' tf' t' U'; try congruence.
  - exists []. repeat split.
  - rewrite U in U'. inversion U'; subst options' o' tf' t'. clear U'.
    exists []. cbn. rewrite Hi. repeat split.
  - rewrite U in U'. inversion U'; subst options' o' tf' t'. clear U'.
    destruct (upcoming (SuspendedYield options o tf t p))
      as [[[[options2 o2] tf2] t2] | ] eqn:U2.
    + destruct (upcoming_SuspendedYield _ _ _ _ _ _ _ _ _ U2)
        as (-> & -> & -> & Hlt).
      destruct (IH _ _ _ _ eq_refl) as (pages & Hb & Hp & Hi' & Hl).
      exists (p :: pages). cbn [map List.length firstn].
      rewrite Hs, Hi, Hp, Hi', Hb, Hl. repeat split.
    + destruct (Traversal_stopped _ _ _ _ _ _ Hsub U2) as (-> & -> & Ho).
      exists [p]. cbn. rewrite Hs, Hi.
      destruct Ho as [-> | ->]; repeat split.
Qed.

(** X6.  At every point of a traversal, also one the consumer abandons or
    one that fails, the batches received are the [records] of the pages
    fetched so far, in order; every exchange but a failing last one
    succeeded; the first request is built from offset 0 and each later one
    from the [range.end] of the page before it; and there is one exchange
    per batch, plus the failing one if the traversal failed. *)
Theorem searchAll_at_every_point (fuel : nat) (this : SearchbaseSDK)
        (options : SearchOptions) (rt : Runtime World) :
  exists es pages,
    calls (runtime (for_await respond rev fuel this (searchAll options) rt))
    = calls rt ++ es
    /\ batches (for_await respond rev fuel this (searchAll options) rt)
       = map records pages
    /\ map (fun e => settle (settled e)) (firstn (List.length pages) es)
       = map Resolve pages
    /\ map init es
       = map (fun o => requestOptions rev this (page_options options o))
             (firstn (List.length es)
                     (0 :: map (fun p => end_ (range p)) pages))
    /\ List.length es
       = (List.length pages
          + match outcome (for_await respond rev fuel this
                                     (searchAll options) rt) with
            | Threw _ => 1
            | _ => 0
            end)%nat.
Proof.
  destruct (for_await_Traversal World respond rev fuel this
              (searchAll options) rt) as [es [Hc Ht]].
  destruct (Traversal_prefix _ _ _ _ _ Ht options 0 0 None eq_refl)
    as (pages & H).
  exists es, pages. split; [exact Hc | exact H].
Qed.

Lemma Traversal_requests (this : SearchbaseSDK) (g : Generator)
      (es : list Exchange) (bs : list (list json)) (out : Outcome) :
  Traversal rev this g es bs out ->
  forall options o tf t,
    upcoming g = Some (options, o, tf, t) ->
    Forall (fun e => url e = (baseURL this ++ "/search")%string
                     /\ exists o',
                         init e = requestOptions rev this
                                                 (page_options options o'))
           es.
Proof.
  induction 1 as [g | g U | g options o tf t e err0 U Hu Hi Hs
                 | g options o tf t e p es bs out U Hu Hi Hs Hsub IH];
    intros options' o' tf' t' U'; try (apply Forall_nil).
  - rewrite U in U'. inversion U'; subst options' o' tf' t'. clear U'.
    apply Forall_cons; [ | apply Forall_nil]. split; [exact Hu | ].
    exists o. exact Hi.
  - rewrite U in U'. inversion U'; subst options' o' tf' t'. clear U'.
    apply Forall_cons; [split; [exact Hu | exists o; exact Hi] | ].
    destruct (upcoming (SuspendedYield options o tf t p))
      as [[[[options2 o2] tf2] t2] | ] eqn:U2.
    + destruct (upcoming_SuspendedYield _ _ _ _ _ _ _ _ _ U2)
        as (-> & -> & -> & Hlt).
      apply (IH _ _ _ _ eq_refl).
    + destruct (Traversal_stopped _ _ _ _ _ _ Hsub U2) as (-> & _).
      apply Forall_nil.
Qed.

(** X7.  Every request of a traversal, at any point of it, is a [POST] to
    [https://api.searchbase.dev/search] with the caller's token, and
    carries the caller's [index], [filters], [sort] and [select] as they
    were given: the driver changes nothing but [limit] and [offset]. *)
Theorem searchAll_requests_carry_the_query
        (fuel : nat) (apiToken : string) (options : SearchOptions)
        (rt : Runtime World) :
  exists es,
    calls (runtime (for_await respond rev fuel (new_SearchbaseSDK apiToken)
                              (searchAll options) rt))
    = calls rt ++ es
    /\ Forall
         (fun e =>
            url e = "https://api.searchbase.dev/search"
            /\ RequestInit.method (init e) = "POST"
            /\ RequestInit.headers (init e)
               = [("Content-Type", "application/json");
                  ("x-searchbase-token", apiToken)]
            /\ get "index" (sent_query e) = Some (JStr (index options))
            /\ get "filters" (sent_query e)
               = option_map (fun fs => JArr (map Filter.to_json fs))
                            (filters options)
            /\ get "sort" (sent_query e)
               = option_map (fun ss => JArr (map Sort.to_json ss))
                            (sort options)
            /\ get "select" (sent_query e)
               = option_map (fun fs => JArr (map JStr fs)) (select options))
         es.
Proof.
  destruct (for_await_Traversal World respond rev fuel
              (new_SearchbaseSDK apiToken) (searchAll options) rt)
    as [es [Hc Ht]].
  exists es. split; [exact Hc | ].
  eapply Forall_impl;
    [ | exact (Traversal_requests _ _ _ _ _ Ht options 0 0 None eq_refl)].
  intros e [Hu [o Hi]].
  rewrite (sent_query_requestOptions rev _ _ _ Hi), Hi.
  rewrite get_index, get_filters, get_sort, get_select.
  repeat split. exact Hu.
Qed.

(** X8.  One call of [next] performs at most one [fetch]: none when it
    reports the end, exactly one when it yields a batch (the [records] of
    the page just fetched) or fails (with the error of that fetch).  Once a
    traversal has ended, by exhaustion or by failure, the generator is
    completed: [next] reports the end again and fetches nothing. *)
Theorem next_fetches_at_most_once (this : SearchbaseSDK) (g : Generator)
        (rt : Runtime World) :
  match next respond rev this g rt with
  | (Resolve Return, g', rt') => g' = Completed /\ rt' = rt
  | (Resolve (Yield batch), g', rt') =>
      exists e p,
        calls rt' = calls rt ++ [e]
        /\ settle (settled e) = Resolve p /\ batch = records p
  | (Reject err, g', rt') =>
      g' = Completed
      /\ exists e, calls rt' = calls rt ++ [e]
                   /\ settle (settled e) = Reject err
  end
  /\ forall fuel options,
      outcome (for_await respond rev fuel this (searchAll options) rt)
      <> Pending ->
      next respond rev this
           (generator (for_await respond rev fuel this (searchAll options) rt))
           (runtime (for_await respond rev fuel this (searchAll options) rt))
      = (Resolve Return, Completed,
         runtime (for_await respond rev fuel this (searchAll options) rt)).
Proof.
  split.
  - rewrite next_upcoming.
    destruct (upcoming g) as [[[[options o] tf] t] | ]; [ | split; reflexivity].
    rewrite fetch_page_run.
    destruct (settle _) as [p | err] eqn:Hs.
    + eexists. exists p. repeat split. exact Hs.
    + split; [reflexivity | ]. eexists. split; [reflexivity | exact Hs].
  - intros fuel options H.
    rewrite (for_await_Completed World respond rev fuel this _ rt H).
    reflexivity.
Qed.

Lemma for_await_stopped (fuel : nat) (this : SearchbaseSDK) (g : Generator)
      (rt : Runtime World) :
  upcoming g = None ->
  for_await respond rev fuel this g rt
  = match fuel with
    | O => {| batches := []; outcome := Pending; generator := g;
              runtime := rt |}
    | S _ => {| batches := []; outcome := Finished; generator := Completed;
                runtime := rt |}
    end.
Proof.
  intros U. destruct fuel as [ | fuel]; [reflexivity | ].
  rewrite for_await_S, U. reflexivity.
Qed.

Lemma for_await_suspended (this : SearchbaseSDK) :
  forall (fuel : nat) (g : Generator) (rt : Runtime World)
         options0 o0 tf0 t0,
    upcoming g = Some (options0, o0, tf0, t0) ->
    forall options o tf t p,
      generator (for_await respond rev fuel this g rt)
      = SuspendedYield options o tf t p ->
      (batches (for_await respond rev fuel this g rt) = []
       /\ g = SuspendedYield options o tf t p)
      \/ (exists earlier,
             batches (for_await respond rev fuel this g rt)
             = earlier ++ [records p]
             /\ tf = tf0 + Z.of_nat (List.length (List.concat earlier))
             /\ options = options0).
Proof.
  induction fuel as [ | fuel IH]; intros g rt options0 o0 tf0 t0 U
                                        options o tf t p.
  - cbn. intros ->. left. split; reflexivity.
  - rewrite for_await_S, U.
    destruct (settle _) as [p1 | err]; [ | discriminate].
    cbv zeta. cbn [generator batches]. intros Hg. right.
    destruct (upcoming (SuspendedYield options0 o0 tf0 t0 p1))
      as [[[[options1 o1] tf1] t1] | ] eqn:U1.
    + destruct (upcoming_SuspendedYield _ _ _ _ _ _ _ _ _ U1)
        as (-> & -> & -> & Hlt).
      destruct (IH _ _ _ _ _ _ U1 _ _ _ _ _ Hg)
        as [[Hb E] | (earlier & Hb & -> & ->)].
      * inversion E; subst. exists []. rewrite Hb. cbn.
        repeat split. lia.
      * exists (records p1 :: earlier). rewrite Hb. cbn [List.concat app].
        rewrite length_app. repeat split. lia.
    + rewrite (for_await_stopped fuel this _ _ U1) in Hg |- *.
      destruct fuel; cbn in Hg; [ | discriminate].
      inversion Hg; subst. exists []. cbn. repeat split. lia.
Qed.

(** X9.  Whenever the generator is suspended at a [yield], the
    [totalFetched] it holds is the number of records in the batches it
    yielded before the current one, the current batch is the [records] of
    the response it holds, and its options are the caller's. *)
Theorem searchAll_totalFetched_invariant
        (fuel : nat) (this : SearchbaseSDK) (options : SearchOptions)
        (rt : Runtime World) options' o tf t p :
  generator (for_await respond rev fuel this (searchAll options) rt)
  = SuspendedYield options' o tf t p ->
  options' = options
  /\ exists earlier,
      batches (for_await respond rev fuel this (searchAll options) rt)
      = earlier ++ [records p]
      /\ tf = Z.of_nat (List.length (List.concat earlier)).
Proof.
  intros Hg.
  destruct (for_await_suspended this fuel (searchAll options) rt
              options 0 0 None eq_refl _ _ _ _ _ Hg)
    as [[_ E] | (earlier & Hb & -> & ->)]; [discriminate | ].
  split; [reflexivity | ]. exists earlier. split; [exact Hb | reflexivity].
Qed.

Lemma firstn_then_rest {A : Type} (n : nat) (l : list A) :
  firstn n l ++ skipn (List.length (firstn n l)) l = l.
Proof.
  rewrite length_firstn.
  destruct (Nat.min_spec n (List.length l)) as [[Hlt ->] | [Hge ->]].
  - apply firstn_skipn.
  - rewrite firstn_all2 by lia. rewrite skipn_all. apply app_nil_r.
Qed.

Lemma page_then_rest (data : list json) (o : Z) (n : nat) :
  0 <= o ->
  firstn n (skipn (Z.to_nat o) data)
  ++ skipn (Z.to_nat
              (o + Z.of_nat
                     (List.length (firstn n (skipn (Z.to_nat o) data)))))
           data
  = skipn (Z.to_nat o) data.
Proof.
  intros Ho.
  replace (Z.to_nat (o + Z.of_nat (List.length
                                     (firstn n (skipn (Z.to_nat o) data)))))
    with (List.length (firstn n (skipn (Z.to_nat o) data)) + Z.to_nat o)%nat
    by lia.
  rewrite <- skipn_skipn. apply firstn_then_rest.
Qed.

Section Truthful.

Variable this : SearchbaseSDK.
Variable options : SearchOptions.
Variable data : list json.

(** The service answers a page request at offset [o] with a leading part of
    what is left of [data] from [o] on, non-empty if anything is left, and
    reports the size of [data] and the end of the slice truthfully. *)
Hypothesis truthful :
  forall o w,
    0 <= o <= Z.of_nat (List.length data) ->
    exists st p w',
      respond (baseURL this ++ "/search")%string
              (requestOptions rev this (page_options options o)) w
      = (Resolve (OkResponse st (Resolve p)), w')
      /\ total p = Z.of_nat (List.length data)
      /\ (exists n, records p = firstn n (skipn (Z.to_nat o) data))
      /\ end_ (range p) = o + Z.of_nat (List.length (records p))
      /\ (o < Z.of_nat (List.length data) -> records p <> []).

Lemma delivers_from_yield :
  forall (m : nat) (o tf : Z) (t : option Z) (p : SearchResponse)
         (rt : Runtime World),
    total p = Z.of_nat (List.length data) ->
    tf + Z.of_nat (List.length (records p)) = end_ (range p) ->
    0 <= end_ (range p) <= Z.of_nat (List.length data) ->
    Z.of_nat (List.length data) - end_ (range p) <= Z.of_nat m ->
    outcome (for_await respond rev (S m) this
                       (SuspendedYield options o tf t p) rt) = Finished
    /\ List.concat (batches (for_await respond rev (S m) this
                                       (SuspendedYield options o tf t p) rt))
       = skipn (Z.to_nat (end_ (range p))) data
    /\ List.length (calls (runtime (for_await respond rev (S m) this
                                       (SuspendedYield options o tf t p) rt)))
       = (List.length (calls rt)
          + List.length (batches (for_await respond rev (S m) this
                                     (SuspendedYield options o tf t p) rt)))%nat
    /\ (List.length (batches (for_await respond rev (S m) this
                                (SuspendedYield options o tf t p) rt))
        <= m)%nat.
Proof.
  induction m as [ | m IH]; intros o tf t p rt Ht Htf Hr Hm;
    rewrite for_await_S; cbn [upcoming]; rewrite Htf, Ht;
    destruct (Z.ltb_spec (end_ (range p)) (Z.of_nat (List.length data)))
      as [Hlt | Hge];
    try lia;
    try (cbn [outcome batches runtime List.concat List.length];
         replace (Z.to_nat (end_ (range p))) with (List.length data) by lia;
         rewrite skipn_all; repeat split; lia).
  destruct (truthful (end_ (range p)) (world rt) Hr)
    as (st & p' & w' & R & Ht' & [n Hn] & He' & Hne).
  unfold exchange_of. rewrite R. cbn [fst settled settle].
  cbv zeta. cbn [outcome batches runtime].
  assert (Hlen : Z.of_nat (List.length (records p'))
                 <= Z.of_nat (List.length data) - end_ (range p)).
  { rewrite Hn. rewrite length_firstn, length_skipn. lia. }
  assert (Hpos : 1 <= Z.of_nat (List.length (records p'))).
  { specialize (Hne Hlt). destruct (records p'); [congruence | ].
    cbn [List.length]. lia. }
  destruct (IH (end_ (range p)) (end_ (range p)) (Some (Z.of_nat (List.length data))) p'
               (after respond rev this
                      (page_options options (end_ (range p))) rt))
    as (Ho & Hc & Hk & Hb); try lia.
  split; [exact Ho | ]. split; [ | split].
  - cbn [List.concat]. rewrite Hc, He', Hn. apply page_then_rest. lia.
  - rewrite Hk. cbn [after calls List.length]. rewrite length_app.
    cbn [List.length]. lia.
  - cbn [List.length]. lia.
Qed.

(** X10.  Against a service that serves a fixed data set truthfully, in
    pages of whatever non-zero size it chooses, a traversal ends without
    error and its batches, concatenated, are the data set: every record
    once, in order.  It makes one fetch per batch, and at most as many
    fetches as there are records (one if there are none). *)
Theorem searchAll_delivers_every_record (rt : Runtime World) :
  outcome (for_await respond rev (S (S (List.length data))) this
                     (searchAll options) rt) = Finished
  /\ List.concat (batches (for_await respond rev (S (S (List.length data)))
                                     this (searchAll options) rt))
     = data
  /\ List.length (calls (runtime (for_await respond rev
                                            (S (S (List.length data))) this
                                            (searchAll options) rt)))
     = (List.length (calls rt)
        + List.length (batches (for_await respond rev
                                          (S (S (List.length data))) this
                                          (searchAll options) rt)))%nat
  /\ (List.length (batches (for_await respond rev (S (S (List.length data)))
                                      this (searchAll options) rt))
      <= Nat.max 1 (List.length data))%nat.
Proof.
  rewrite for_await_S. cbn [upcoming searchAll].
  destruct (truthful 0 (world rt) ltac:(lia))
    as (st & p & w' & R & Ht & [n Hn] & He & Hne).
  unfold exchange_of. rewrite R. cbn [fst settled settle].
  cbv zeta. cbn [outcome batches runtime].
  assert (Hlen : (List.length (records p) <= List.length data)%nat).
  { rewrite Hn. rewrite length_firstn. cbn [skipn Z.to_nat]. lia. }
  set (rt1 := after respond rev this (page_options options 0) rt).
  set (m := (List.length data - List.length (records p))%nat).
  assert (Hm : for_await respond rev (S (List.length data)) this
                         (SuspendedYield options 0 0 None p) rt1
               = for_await respond rev (S m) this
                           (SuspendedYield options 0 0 None p) rt1).
  { replace (S (List.length data)) with (S m + List.length (records p))%nat
      by (unfold m; lia).
    apply for_await_more.
    destruct (delivers_from_yield m 0 0 None p rt1) as (Ho & _);
      try (unfold m; lia).
    rewrite Ho. discriminate. }
  rewrite Hm.
  destruct (delivers_from_yield m 0 0 None p rt1) as (Ho & Hc & Hk & Hb);
    try (unfold m; lia).
  split; [exact Ho | ]. split; [ | split].
  - cbn [List.concat]. rewrite Hc, He, Hn.
    rewrite (page_then_rest data 0 n) by lia. reflexivity.
  - rewrite Hk. unfold rt1. cbn [after calls List.length].
    rewrite length_app. cbn [List.length]. lia.
  - cbn [List.length].
    assert (Hz : List.length data = 0%nat \/ (1 <= List.length (records p))%nat).
    { destruct (List.length data) eqn:E; [left; reflexivity | right].
      assert (Hp : records p <> []) by (apply Hne; lia).
      destruct (records p); [congruence | cbn [List.length]; lia]. }
    unfold m in *. lia.
Qed.

End Truthful.

Section FullPages.

Variable this : SearchbaseSDK.
Variable options : SearchOptions.
Variable data : list json.

(** The service answers a page request at offset [o] with the next 100
    records of [data] from [o] on, or with all that is left if that is
    less, and reports the size of [data] and the end of the slice. *)
Hypothesis full_pages :
  forall o w,
    0 <= o <= Z.of_nat (List.length data) ->
    exists st p w',
      respond (baseURL this ++ "/search")%string
              (requestOptions rev this (page_options options o)) w
      = (Resolve (OkResponse st (Resolve p)), w')
      /\ total p = Z.of_nat (List.length data)
      /\ records p = firstn 100 (skipn (Z.to_nat o) data)
      /\ end_ (range p) = o + Z.of_nat (List.length (records p)).

Lemma count_from_yield :
  forall (k : nat) (o tf : Z) (t : option Z) (p : SearchResponse)
         (rt : Runtime World),
    total p = Z.of_nat (List.length data) ->
    tf + Z.of_nat (List.length (records p)) = end_ (range p) ->
    0 <= end_ (range p) <= Z.of_nat (List.length data) ->
    Z.of_nat (List.length data) - end_ (range p) <= 100 * Z.of_nat k ->
    100 * Z.of_nat k < Z.of_nat (List.length data) - end_ (range p) + 100 ->
    outcome (for_await respond rev (S k) this
                       (SuspendedYield options o tf t p) rt) = Finished
    /\ List.length (batches (for_await respond rev (S k) this
                                       (SuspendedYield options o tf t p) rt))
       = k
    /\ List.length (calls (runtime (for_await respond rev (S k) this
                                       (SuspendedYield options o tf t p) rt)))
       = (List.length (calls rt) + k)%nat.
Proof.
  induction k as [ | k IH]; intros o tf t p rt Ht Htf Hr Hle Hlt;
    rewrite for_await_S; cbn [upcoming]; rewrite Htf, Ht;
    destruct (Z.ltb_spec (end_ (range p)) (Z.of_nat (List.length data)))
      as [Hc | Hc];
    try lia;
    try (cbn [outcome batches runtime List.length]; repeat split; lia).
  destruct (full_pages (end_ (range p)) (world rt) Hr)
    as (st & p' & w' & R & Ht' & Hn & He').
  unfold exchange_of. rewrite R. cbn [fst settled settle].
  cbv zeta. cbn [outcome batches runtime].
  assert (Hlen : List.length (records p')
                 = Nat.min 100 (List.length data - Z.to_nat (end_ (range p)))).
  { rewrite Hn. rewrite length_firstn, length_skipn. reflexivity. }
  destruct (IH (end_ (range p)) (end_ (range p))
               (Some (Z.of_nat (List.length data))) p'
               (after respond rev this
                      (page_options options (end_ (range p))) rt))
    as (Ho & Hb & Hk); try lia.
  split; [exact Ho | ]. split.
  - cbn [List.length]. rewrite Hb. reflexivity.
  - rewrite Hk. cbn [after calls List.length]. rewrite length_app.
    cbn [List.length]. lia.
Qed.

(** X11.  Against a service that serves a fixed data set of [N] records
    in full pages of 100, a traversal ends after exactly [k + 1] fetches
    and as many batches, where [100 k < N <= 100 (k + 1)]; an empty data
    set costs one fetch. *)
Theorem searchAll_fetch_count (k : nat) (rt : Runtime World) :
  Z.of_nat (List.length data) <= 100 * (Z.of_nat k + 1) ->
  k = 0%nat \/ 100 * Z.of_nat k < Z.of_nat (List.length data) ->
  outcome (for_await respond rev (S (S k)) this (searchAll options) rt)
  = Finished
  /\ List.length (batches (for_await respond rev (S (S k)) this
                                     (searchAll options) rt))
     = S k
  /\ List.length (calls (runtime (for_await respond rev (S (S k)) this
                                            (searchAll options) rt)))
     = (List.length (calls rt) + S k)%nat.
Proof.
  intros Hle Hlt.
  rewrite for_await_S. cbn [upcoming searchAll].
  destruct (full_pages 0 (world rt) ltac:(lia))
    as (st & p & w' & R & Ht & Hn & He).
  unfold exchange_of. rewrite R. cbn [fst settled settle].
  cbv zeta. cbn [outcome batches runtime].
  assert (Hlen : List.length (records p) = Nat.min 100 (List.length data)).
  { rewrite Hn. rewrite length_firstn. cbn [skipn Z.to_nat].
    reflexivity. }
  destruct (count_from_yield k 0 0 None p
              (after respond rev this (page_options options 0) rt))
    as (Ho & Hb & Hk); try lia.
  split; [exact Ho | ]. split.
  - cbn [List.length]. rewrite Hb. reflexivity.
  - rewrite Hk. cbn [after calls List.length]. rewrite length_app.
    cbn [List.length]. lia.
Qed.

End FullPages.

Lemma upcoming_with_options (f : SearchOptions -> SearchOptions)
      (g : Generator) :
  upcoming (with_options f g)
  = match upcoming g with
    | Some (options, o, tf, t) => Some (f options, o, tf, t)
    | None => None
    end.
Proof.
  destruct g as [options | options o tf t p | ]; cbn; try reflexivity.
  destruct (_ <? _); reflexivity.
Qed.

Lemma for_await_with_options (this : SearchbaseSDK) :
  forall (fuel : nat) (g : Generator) (rt : Runtime World),
    for_await respond rev fuel this (with_options Omit_limit_offset g) rt
    = {| batches := batches (for_await respond rev fuel this g rt);
         outcome := outcome (for_await respond rev fuel this g rt);
         generator := with_options Omit_limit_offset
                        (generator (for_await respond rev fuel this g rt));
         runtime := runtime (for_await respond rev fuel this g rt) |}.
Proof.
  induction fuel as [ | fuel IH]; intros g rt; [reflexivity | ].
  rewrite !for_await_S, upcoming_with_options.
  destruct (upcoming g) as [[[[options o] tf] t] | ]; [ | reflexivity].
  change (page_options (Omit_limit_offset options) o)
    with (page_options options o).
  destruct (settle _) as [p | err]; [ | reflexivity].
  cbv zeta.
  rewrite (IH (SuspendedYield options o tf t p)). reflexivity.
Qed.

(** X12.  A [limit] or [offset] that the caller passes to [searchAll]
    against its declared type has no effect: the traversal performs the
    same exchanges and yields the same batches, with the same outcome, as
    with the two keys left out. *)
Theorem searchAll_ignores_limit_and_offset
        (fuel : nat) (this : SearchbaseSDK) (options : SearchOptions)
        (rt : Runtime World) :
  batches (for_await respond rev fuel this
                     (searchAll (Omit_limit_offset options)) rt)
  = batches (for_await respond rev fuel this (searchAll options) rt)
  /\ outcome (for_await respond rev fuel this
                        (searchAll (Omit_limit_offset options)) rt)
     = outcome (for_await respond rev fuel this (searchAll options) rt)
  /\ runtime (for_await respond rev fuel this
                        (searchAll (Omit_limit_offset options)) rt)
     = runtime (for_await respond rev fuel this (searchAll options) rt).
Proof.
  change (searchAll (Omit_limit_offset options))
    with (with_options Omit_limit_offset (searchAll options)).
  rewrite for_await_with_options. repeat split.
Qed.

End Pagination.

(** * Examples for the pagination driver *)

Lemma paged_answers (data : list json) (rev : revision)
      (this : SearchbaseSDK) (options : SearchOptions) (u : string)
      (o : Z) (w : unit) :
  0 <= o ->
  paged data u (requestOptions rev this (page_options options o)) w
  = (Resolve
       (page (Z.of_nat (List.length data)) o
             (o + Z.of_nat
                    (List.length (firstn 100 (skipn (Z.to_nat o) data))))
             (firstn 100 (skipn (Z.to_nat o) data))),
     w).
Proof.
  intros Ho. unfold paged, requested.
  cbn [RequestInit.body requestOptions body get String.eqb Ascii.eqb
       Bool.eqb].
  rewrite page_limit.
  destruct (Z.eq_dec o 0) as [-> | Hne].
  - rewrite page_offset_zero. reflexivity.
  - rewrite page_offset_positive by lia. reflexivity.
Qed.

Lemma searchAll_totalFetched_invariant_witness :
  test_index = test_index
  /\ exists earlier,
      batches (for_await mockedFetch part_001 2 sdk (searchAll test_index)
                         (mocked two_pages))
      = earlier ++ [[record "3" "Record 3"]]
      /\ 2 = Z.of_nat (List.length (List.concat earlier)).
Proof.
  apply (searchAll_totalFetched_invariant _ mockedFetch part_001 2 sdk
           test_index (mocked two_pages) test_index 2 2 (Some 3)
           {| total := 3; range := {| start := 2; end_ := 3 |};
              records := [record "3" "Record 3"] |}).
  reflexivity.
Defined.

Lemma searchAll_delivers_every_record_witness :
  List.concat
    (batches (for_await (paged (numbered 250)) part_001
                        (S (S (List.length (numbered 250)))) sdk
                        (searchAll test_index) (fresh tt)))
  = numbered 250.
Proof.
  apply (searchAll_delivers_every_record _ (paged (numbered 250)) part_001
           sdk test_index (numbered 250)).
  intros o w Ho.
  exists 200, {| total := Z.of_nat (List.length (numbered 250));
                 range := {| start := o;
                             end_ := o + Z.of_nat
                                           (List.length
                                              (firstn 100
                                                 (skipn (Z.to_nat o)
                                                        (numbered 250)))) |};
                 records := firstn 100 (skipn (Z.to_nat o) (numbered 250)) |},
         w.
  split; [apply paged_answers; lia | ].
  split; [reflexivity | ].
  split; [exists 100%nat; reflexivity | ].
  split; [reflexivity | ].
  cbn [records]. intros Hlt E.
  apply (f_equal (@List.length json)) in E.
  rewrite length_firstn, length_skipn in E. cbn [List.length] in E. lia.
Defined.

Lemma searchAll_fetch_count_witness :
  outcome (for_await (paged (numbered 250)) part_001 4 sdk
                     (searchAll test_index) (fresh tt))
  = Finished
  /\ List.length (batches (for_await (paged (numbered 250)) part_001 4 sdk
                                     (searchAll test_index) (fresh tt)))
     = 3%nat
  /\ List.length (calls (runtime (for_await (paged (numbered 250)) part_001 4
                                            sdk (searchAll test_index)
                                            (fresh tt))))
     = (List.length (calls (fresh tt)) + 3)%nat.
Proof.
  apply (searchAll_fetch_count _ (paged (numbered 250)) part_001 sdk
           test_index (numbered 250)).
  - intros o w Ho.
    exists 200, {| total := Z.of_nat (List.length (numbered 250));
                   range := {| start := o;
                               end_ := o + Z.of_nat
                                             (List.length
                                                (firstn 100
                                                   (skipn (Z.to_nat o)
                                                          (numbered 250)))) |};
                   records := firstn 100 (skipn (Z.to_nat o) (numbered 250)) |},
           w.
    split; [apply paged_answers; lia | ].
    repeat split.
  - vm_compute. discriminate.
  - right. vm_compute. reflexivity.
Defined.

Lemma next_fetches_at_most_once_witness :
  next mockedFetch part_001 sdk
       (generator (for_await mockedFetch part_001 5 sdk (searchAll test_index)
                             (mocked two_pages)))
       (runtime (for_await mockedFetch part_001 5 sdk (searchAll test_index)
                           (mocked two_pages)))
  = (Resolve Return, Completed,
     runtime (for_await mockedFetch part_001 5 sdk (searchAll test_index)
                        (mocked two_pages))).
Proof.
  apply (proj2 (next_fetches_at_most_once _ mockedFetch part_001 sdk
                  (searchAll test_index) (mocked two_pages))
               5%nat test_index).
  discriminate.
Defined.

Section Results.

Variable World : Type.
Variable respond :
  string -> RequestInit.t -> World -> Completion Response * World.
Variable rev : revision.

(** X13.  [search] resolves in one situation only, and then with the
    decoded body: [fetch] resolved with a success status and
    [response.json()] resolved.  A failure status, a rejected [fetch] or a
    body that does not parse never gives a result. *)
Theorem search_resolves_iff
        (this : SearchbaseSDK) (options : SearchOptions) (rt : Runtime World)
        (data : SearchResponse) :
  fst (search respond rev this options rt) = Resolve data
  <-> exists st,
      fst (respond (baseURL this ++ "/search")%string
                   (requestOptions rev this options) (world rt))
      = Resolve (OkResponse st (Resolve data)).
Proof.
  rewrite search_settle. unfold exchange_of. cbn [fst settled]. split.
  - apply settle_Resolve.
  - intros [st ->]. reflexivity.
Qed.

End Results.
